(** * Snake game with levels: the tick state machine and its persistence

    A shallow embedding of [snake_game.py].  The window object [self] is the
    record [Session]; the two JSON files, the console and the window are the
    record [World]; [random.randint] is an oracle indexed by the number of
    draws made so far.  Sounds ([_maybe_play]) swallow every error and touch
    no field of the session, so they are left out. *)

From Stdlib Require Import ZArith QArith List Bool String DecimalString Lia Lqa.
Import ListNotations.

#[local] Set Warnings "-register-all".
#[local] Open Scope Z_scope.

(** ** Configuration *)

Definition Pos : Type := (Z * Z)%type.

Definition GRID_WIDTH : Z := 30.
Definition GRID_HEIGHT : Z := 20.

Record Level : Type := mkLevel { lv_score : Z; lv_speed : Z }.

Definition LEVELS : list Level :=
  [ mkLevel 0 5; mkLevel 50 8; mkLevel 100 12; mkLevel 150 15 ].

(** ** Python values that cross the persistence boundary *)

Inductive json : Type :=
| JNull
| JBool (b : bool)
| JInt (z : Z)
| JFloat (q : Q)
| JStr (s : string)
| JArr (items : list json)
| JObj (fields : list (string * json)).

Inductive pyexn : Type :=
| IndexError | KeyError | TypeError | OSError | ZeroDivisionError.

(** What running a method gives: it returns, an exception escapes it, a
    field receives a value outside the types of [Session] (Python stores it
    without complaint; the model stops there), or the fuel of a [while True]
    loop ran out. *)
Inductive result (A : Type) : Type :=
| Ok (a : A)
| Raise (e : pyexn)
| Untyped
| Timeout.

Arguments Ok {A} a.
Arguments Raise {A} e.
Arguments Untyped {A}.
Arguments Timeout {A}.

Definition bind {A B : Type} (r : result A) (k : A -> result B) : result B :=
  match r with
  | Ok a => k a
  | Raise e => Raise e
  | Untyped => Untyped
  | Timeout => Timeout
  end.

Notation "x <- r ;; k" := (bind r (fun x => k))
  (at level 61, r at next level, right associativity).

(** ** The session *)

Record Session : Type := mkSession {
  snake : list Pos;
  direction : Pos;
  food : Pos;
  score : Z;
  level_index : Z;
  moves_per_second : Z;
  tick_accumulator : Q;   (* a float in the source, see FloatOps *)
  game_over : bool;
  paused : bool;
  highscore : Z
}.

Definition set_snake (v : list Pos) (s : Session) : Session :=
  mkSession v (direction s) (food s) (score s) (level_index s)
    (moves_per_second s) (tick_accumulator s) (game_over s) (paused s) (highscore s).
Definition set_direction (v : Pos) (s : Session) : Session :=
  mkSession (snake s) v (food s) (score s) (level_index s)
    (moves_per_second s) (tick_accumulator s) (game_over s) (paused s) (highscore s).
Definition set_food (v : Pos) (s : Session) : Session :=
  mkSession (snake s) (direction s) v (score s) (level_index s)
    (moves_per_second s) (tick_accumulator s) (game_over s) (paused s) (highscore s).
Definition set_score (v : Z) (s : Session) : Session :=
  mkSession (snake s) (direction s) (food s) v (level_index s)
    (moves_per_second s) (tick_accumulator s) (game_over s) (paused s) (highscore s).
Definition set_level_index (v : Z) (s : Session) : Session :=
  mkSession (snake s) (direction s) (food s) (score s) v
    (moves_per_second s) (tick_accumulator s) (game_over s) (paused s) (highscore s).
Definition set_moves_per_second (v : Z) (s : Session) : Session :=
  mkSession (snake s) (direction s) (food s) (score s) (level_index s)
    v (tick_accumulator s) (game_over s) (paused s) (highscore s).
Definition set_tick_accumulator (v : Q) (s : Session) : Session :=
  mkSession (snake s) (direction s) (food s) (score s) (level_index s)
    (moves_per_second s) v (game_over s) (paused s) (highscore s).
Definition set_game_over (v : bool) (s : Session) : Session :=
  mkSession (snake s) (direction s) (food s) (score s) (level_index s)
    (moves_per_second s) (tick_accumulator s) v (paused s) (highscore s).
Definition set_paused (v : bool) (s : Session) : Session :=
  mkSession (snake s) (direction s) (food s) (score s) (level_index s)
    (moves_per_second s) (tick_accumulator s) (game_over s) v (highscore s).
Definition set_highscore (v : Z) (s : Session) : Session :=
  mkSession (snake s) (direction s) (food s) (score s) (level_index s)
    (moves_per_second s) (tick_accumulator s) (game_over s) (paused s) v.

(** ** The world around the session *)

(** A file: its parsed content ([None] when [open] or [json.load] raises)
    and whether [open(..., "w")] succeeds. *)
Record File : Type := mkFile { content : option json; writable : bool }.

Inductive message : Type :=
| GameSaved
| FailedToSave (e : pyexn)
| GameLoaded
| FailedToLoad (e : pyexn).

Record World : Type := mkWorld {
  save_file : File;        (* SAVE_FILE = save_slot.json *)
  highscore_file : File;   (* HIGHSCORE_FILE = highscore.json *)
  stdout : list message;   (* what print wrote, oldest first *)
  window_open : bool
}.

(** The [k]-th call of [random.randint(lo, hi)]. *)
Definition Rng : Type := nat -> Z -> Z -> Z.

(** [random.randint(a, b)] returns an integer N with a <= N <= b. *)
Definition rng_sound (rng : Rng) : Prop :=
  forall k lo hi, lo <= hi -> lo <= rng k lo hi <= hi.

Record Machine : Type := mkMachine {
  self : Session;
  world : World;
  draws : nat              (* calls of randint made so far *)
}.

Definition with_self (s : Session) (m : Machine) : Machine :=
  mkMachine s (world m) (draws m).
Definition with_world (w : World) (m : Machine) : Machine :=
  mkMachine (self m) w (draws m).
Definition with_draws (d : nat) (m : Machine) : Machine :=
  mkMachine (self m) (world m) d.

Definition print (msg : message) (w : World) : World :=
  mkWorld (save_file w) (highscore_file w) (stdout w ++ [msg]) (window_open w).

(** ** Cells *)

Definition pos_eqb (p q : Pos) : bool :=
  (fst p =? fst q) && (snd p =? snd q).

(** [p in cells] on a Python list of tuples. *)
Definition pos_in (p : Pos) (cells : list Pos) : bool :=
  existsb (pos_eqb p) cells.

Definition in_grid (p : Pos) : Prop :=
  0 <= fst p < GRID_WIDTH /\ 0 <= snd p < GRID_HEIGHT.

(** ** Python list indexing, [xs[i]] *)

Definition py_index {A : Type} (xs : list A) (i : Z) : result A :=
  let n := Z.of_nat (List.length xs) in
  let j := if i <? 0 then i + n else i in
  if (j <? 0) || (n <=? j) then Raise IndexError
  else match nth_error xs (Z.to_nat j) with
       | Some a => Ok a
       | None => Raise IndexError
       end.

(** ** spawn_food *)

(** [(random.randint(0, GRID_WIDTH - 1), random.randint(0, GRID_HEIGHT - 1))]
    when [d] draws were made before. *)
Definition draw_cell (rng : Rng) (d : nat) : Pos :=
  (rng d 0 (GRID_WIDTH - 1), rng (S d) 0 (GRID_HEIGHT - 1)).

Fixpoint spawn_food_loop (fuel : nat) (rng : Rng) (d : nat) (cells : list Pos)
  : result (Pos * nat) :=
  match fuel with
  | O => Timeout
  | S fuel' =>
      let p := draw_cell rng d in
      if negb (pos_in p cells) then Ok (p, S (S d))
      else spawn_food_loop fuel' rng (S (S d)) cells
  end.

Definition spawn_food (fuel : nat) (rng : Rng) (m : Machine) : result Machine :=
  r <- spawn_food_loop fuel rng (draws m) (snake (self m)) ;;
  Ok (with_draws (snd r) (with_self (set_food (fst r) (self m)) m)).

(** ** check_level_up *)

Fixpoint check_level_up_from (idxs : list nat) (s : Session) : Session :=
  match idxs with
  | [] => s
  | idx :: rest =>
      match nth_error LEVELS idx with
      | Some lv =>
          if score s >=? lv_score lv then
            if negb (Z.of_nat idx =? level_index s) then
              set_moves_per_second (lv_speed lv) (set_level_index (Z.of_nat idx) s)
            else s
          else check_level_up_from rest s
      | None => s
      end
  end.

(** [for idx in reversed(range(len(LEVELS)))] *)
Definition check_level_up (s : Session) : Session :=
  check_level_up_from (rev (seq 0 (List.length LEVELS))) s.

(** ** save_highscore / load_highscore *)

Definition write_highscore (v : Z) (w : World) : World :=
  mkWorld (save_file w)
    (mkFile (Some (JObj [("highscore"%string, JInt v)])) true)
    (stdout w) (window_open w).

Definition save_highscore (m : Machine) : Machine :=
  let v := Z.max (highscore (self m)) (score (self m)) in
  if writable (highscore_file (world m)) then
    mkMachine (set_highscore v (self m)) (write_highscore v (world m)) (draws m)
  else m.

Fixpoint dict_get (key : string) (fields : list (string * json)) : option json :=
  match fields with
  | [] => None
  | (k, v) :: rest => if String.eqb k key then Some v else dict_get key rest
  end.

(** [data.get("highscore", 0)], with [except Exception: self.highscore = 0]. *)
Definition load_highscore (m : Machine) : result Machine :=
  match content (highscore_file (world m)) with
  | None => Ok (with_self (set_highscore 0 (self m)) m)
  | Some (JObj fields) =>
      match dict_get "highscore" fields with
      | None => Ok (with_self (set_highscore 0 (self m)) m)
      | Some (JInt v) => Ok (with_self (set_highscore v (self m)) m)
      | Some _ => Untyped
      end
  | Some _ => Ok (with_self (set_highscore 0 (self m)) m)
  end.

(** ** game_tick *)

Definition new_head_of (head dir : Pos) : Pos :=
  (fst head + fst dir, snd head + snd dir).

Definition collides (new_head : Pos) (cells : list Pos) : bool :=
  let '(hx, hy) := new_head in
  (hx <? 0) || (hx >=? GRID_WIDTH) || (hy <? 0) || (hy >=? GRID_HEIGHT)
  || pos_in new_head cells.

Definition game_tick (fuel : nat) (rng : Rng) (m : Machine) : result Machine :=
  match snake (self m) with
  | [] => Raise IndexError
  | head :: _ =>
      let new_head := new_head_of head (direction (self m)) in
      if collides new_head (snake (self m)) then
        Ok (save_highscore (with_self (set_game_over true (self m)) m))
      else
        let s1 := set_snake (new_head :: snake (self m)) (self m) in
        if pos_eqb new_head (food s1) then
          m2 <- spawn_food fuel rng (with_self (set_score (score s1 + 10) s1) m) ;;
          Ok (with_self (check_level_up (self m2)) m2)
        else
          Ok (with_self (set_snake (removelast (snake s1)) s1) m)
  end.

(** ** reset_game *)

Definition reset_game (fuel : nat) (rng : Rng) (m : Machine) : result Machine :=
  let s1 := set_direction (1, 0)
              (set_snake [(GRID_WIDTH / 2, GRID_HEIGHT / 2)] (self m)) in
  m2 <- spawn_food fuel rng (with_self s1 m) ;;
  let s3 := set_level_index 0 (set_score 0 (self m2)) in
  lv <- py_index LEVELS (level_index s3) ;;
  let s4 := set_paused false (set_game_over false
              (set_tick_accumulator 0%Q (set_moves_per_second (lv_speed lv) s3))) in
  load_highscore (with_self s4 m2).

(** ** save_game / load_game *)

Definition pos_json (p : Pos) : json := JArr [JInt (fst p); JInt (snd p)].

(** The dict that [save_game] hands to [json.dump]; tuples become arrays. *)
Definition save_record (s : Session) : json :=
  JObj [ ("snake"%string, JArr (map pos_json (snake s)));
         ("direction"%string, pos_json (direction s));
         ("food"%string, pos_json (food s));
         ("score"%string, JInt (score s));
         ("level_index"%string, JInt (level_index s)) ].

Definition write_save (j : json) (w : World) : World :=
  mkWorld (mkFile (Some j) true) (highscore_file w) (stdout w) (window_open w).

Definition save_game (m : Machine) : Machine :=
  if writable (save_file (world m)) then
    with_world (print GameSaved (write_save (save_record (self m)) (world m))) m
  else
    with_world (print (FailedToSave OSError) (world m)) m.

(** [data[key]] on what [json.load] returned. *)
Definition py_getitem (data : json) (key : string) : result json :=
  match data with
  | JObj fields =>
      match dict_get key fields with
      | Some v => Ok v
      | None => Raise KeyError
      end
  | _ => Raise TypeError
  end.

(** [tuple(p)], kept when it is a pair of integers. *)
Definition py_tuple (p : json) : result Pos :=
  match p with
  | JArr [JInt x; JInt y] => Ok (x, y)
  | JArr _ | JStr _ | JObj _ => Untyped
  | JNull | JBool _ | JInt _ | JFloat _ => Raise TypeError
  end.

(** The comprehension runs to its end before anything is assigned: an
    exception raised by a later element wins over an earlier odd tuple. *)
Fixpoint py_tuples (items : list json) : result (list Pos) :=
  match items with
  | [] => Ok []
  | p :: rest =>
      match py_tuple p, py_tuples rest with
      | Raise e, _ => Raise e
      | _, Raise e => Raise e
      | Ok c, Ok cs => Ok (c :: cs)
      | Timeout, _ | _, Timeout => Timeout
      | _, _ => Untyped
      end
  end.

(** [[tuple(p) for p in v]] *)
Definition py_snake (v : json) : result (list Pos) :=
  match v with
  | JArr items => py_tuples items
  | JStr EmptyString | JObj [] => Ok []
  | JStr _ | JObj _ => Untyped
  | JNull | JBool _ | JInt _ | JFloat _ => Raise TypeError
  end.

Definition py_int (v : json) : result Z :=
  match v with
  | JInt z => Ok z
  | _ => Untyped
  end.

(** How the body of a [try] block ends. *)
Inductive attempt : Type :=
| Completed (s : Session)
| Caught (e : pyexn) (s : Session)   (* the session as the exception left it *)
| Unmodelled.

(** One assignment [self.f = e] inside the [try]: when [e] raises, the
    fields assigned so far stay assigned. *)
Definition assign {A : Type} (e : result A) (setf : A -> Session -> Session)
  (s : Session) (k : Session -> attempt) : attempt :=
  match e with
  | Ok a => k (setf a s)
  | Raise ex => Caught ex s
  | Untyped | Timeout => Unmodelled
  end.

Definition load_body (data : json) (s : Session) : attempt :=
  assign (v <- py_getitem data "snake" ;; py_snake v) set_snake s (fun s =>
  assign (v <- py_getitem data "direction" ;; py_tuple v) set_direction s (fun s =>
  assign (v <- py_getitem data "food" ;; py_tuple v) set_food s (fun s =>
  assign (v <- py_getitem data "score" ;; py_int v) set_score s (fun s =>
  assign (v <- py_getitem data "level_index" ;; py_int v) set_level_index s (fun s =>
  assign (lv <- py_index LEVELS (level_index s) ;; Ok (lv_speed lv))
         set_moves_per_second s (fun s =>
  Completed (set_paused false (set_game_over false s)))))))).

Definition load_game (m : Machine) : result Machine :=
  match content (save_file (world m)) with
  | None => Ok (with_world (print (FailedToLoad OSError) (world m)) m)
  | Some data =>
      match load_body data (self m) with
      | Completed s => Ok (mkMachine s (print GameLoaded (world m)) (draws m))
      | Caught e s => Ok (mkMachine s (print (FailedToLoad e) (world m)) (draws m))
      | Unmodelled => Untyped
      end
  end.

(** ** on_key_press *)

Inductive key : Type :=
| UP | DOWN | LEFT | RIGHT | SPACE | ENTER | ESCAPE | KEY_S | KEY_L | OTHER.

Definition close_window (w : World) : World :=
  mkWorld (save_file w) (highscore_file w) (stdout w) false.

Definition on_key_press (fuel : nat) (rng : Rng) (k : key) (m : Machine)
  : result Machine :=
  let s := self m in
  match k with
  | UP => if negb (pos_eqb (direction s) (0, -1))
          then Ok (with_self (set_direction (0, 1) s) m) else Ok m
  | DOWN => if negb (pos_eqb (direction s) (0, 1))
            then Ok (with_self (set_direction (0, -1) s) m) else Ok m
  | LEFT => if negb (pos_eqb (direction s) (1, 0))
            then Ok (with_self (set_direction (-1, 0) s) m) else Ok m
  | RIGHT => if negb (pos_eqb (direction s) (-1, 0))
             then Ok (with_self (set_direction (1, 0) s) m) else Ok m
  | SPACE => Ok (with_self (set_paused (negb (paused s)) s) m)
  | ENTER => if game_over s then reset_game fuel rng m else Ok m
  | ESCAPE => Ok (with_world (close_window (world m)) m)
  | KEY_S => Ok (save_game m)
  | KEY_L => load_game m
  | OTHER => Ok m
  end.

(** ** on_update *)

(** Float arithmetic as the platform rounds it.  A finite float is a
    rational, so the accumulator is kept in [Q]; the rounding of each
    operation is the platform's. *)
Record FloatOps : Type := mkFloatOps {
  fadd : Q -> Q -> Q;
  fsub : Q -> Q -> Q;
  fdiv : Q -> Q -> Q;
  fge : Q -> Q -> bool
}.

Fixpoint on_update_loop (n : nat) (ops : FloatOps) (fuel : nat) (rng : Rng)
  (tick_interval : Q) (m : Machine) : result Machine :=
  match n with
  | O => Timeout
  | S n' =>
      if fge ops (tick_accumulator (self m)) tick_interval then
        let acc := fsub ops (tick_accumulator (self m)) tick_interval in
        m1 <- game_tick fuel rng (with_self (set_tick_accumulator acc (self m)) m) ;;
        on_update_loop n' ops fuel rng tick_interval m1
      else Ok m
  end.

Definition on_update (ops : FloatOps) (fuel : nat) (rng : Rng) (delta_time : Q)
  (m : Machine) : result Machine :=
  let s := self m in
  if paused s || game_over s then Ok m
  else
    let s1 := set_tick_accumulator (fadd ops (tick_accumulator s) delta_time) s in
    if moves_per_second s1 =? 0 then Raise ZeroDivisionError
    else
      let tick_interval := fdiv ops 1%Q (inject_Z (moves_per_second s1)) in
      on_update_loop fuel ops fuel rng tick_interval (with_self s1 m).

(** ** Vocabulary of the properties *)

(** The direction an arrow key asks for, as [on_key_press] assigns it. *)
Definition key_delta (k : key) : option Pos :=
  match k with
  | UP => Some (0, 1)
  | DOWN => Some (0, -1)
  | LEFT => Some (-1, 0)
  | RIGHT => Some (1, 0)
  | _ => None
  end.

Definition opposite (d : Pos) : Pos := (- fst d, - snd d).

(** What the data model asks of snake and food. *)
Definition consistent (s : Session) : Prop :=
  snake s <> [] /\ NoDup (snake s) /\ in_grid (food s) /\ ~ In (food s) (snake s).

(** States reached from a reset by ticks (called directly or from
    [on_update]) and by any key other than L. *)
Inductive reachable (rng : Rng) : Machine -> Prop :=
| reach_reset fuel m0 m :
    reset_game fuel rng m0 = Ok m -> reachable rng m
| reach_tick fuel m m' :
    reachable rng m -> game_tick fuel rng m = Ok m' -> reachable rng m'
| reach_update ops fuel dt m m' :
    reachable rng m -> on_update ops fuel rng dt m = Ok m' -> reachable rng m'
| reach_key fuel k m m' :
    reachable rng m -> k <> KEY_L -> on_key_press fuel rng k m = Ok m' ->
    reachable rng m'.

(** Iteration [n] of the sampling loop that starts after [d] draws finds a
    cell off [cells]. *)
Definition free_draw (rng : Rng) (d : nat) (cells : list Pos) (n : nat) : Prop :=
  pos_in (draw_cell rng (d + 2 * n)) cells = false.

(** ** Sample worlds and sessions *)

Definition fresh_world : World :=
  mkWorld (mkFile None true) (mkFile None true) [] true.

Definition readonly_world : World :=
  mkWorld (mkFile None false) (mkFile None false) [] true.

(** A generator that always answers the lower bound. *)
Definition rng_low : Rng := fun _ lo _ => lo.

Definition session_of (cells : list Pos) (dir fd : Pos) (sc hs : Z) : Session :=
  mkSession cells dir fd sc 0 5 0%Q false false hs.

(** A snake curled in a square, about to step onto its own tail. *)
Definition curled : Machine :=
  mkMachine (session_of [(1, 1); (1, 2); (2, 2); (2, 1)] (1, 0) (9, 9) 30 0)
            fresh_world 0.

(** A one-cell snake at the left wall, heading left, score 10. *)
Definition at_wall (w : World) : Machine :=
  mkMachine (session_of [(0, 10)] (-1, 0) (9, 9) 10 0) w 0.

(** A one-cell snake at the centre heading right, food at [fd]. *)
Definition centred (fd : Pos) : Machine :=
  mkMachine (session_of [(15, 10)] (1, 0) fd 0 0) fresh_world 0.

(** A one-cell snake on the cell that [rng_low] always draws. *)
Definition cornered : Machine :=
  mkMachine (session_of [(0, 0)] (1, 0) (9, 9) 0 0) fresh_world 0.

(** The session right after a reset in a fresh world, with [rng_low]. *)
Definition started : Machine :=
  mkMachine (mkSession [(15, 10)] (1, 0) (0, 0) 0 0 5 0%Q false false 0)
            fresh_world 2.

(** A stored record that has a snake and nothing else. *)
Definition snake_only_record : json :=
  JObj [("snake"%string, JArr [JArr [JInt 1; JInt 2]])].

(** The started session next to a save slot that holds [j]. *)
Definition started_with_slot (j : json) : Machine :=
  mkMachine (self started)
            (mkWorld (mkFile (Some j) true) (mkFile None true) [] true) 2.

(** ** Vocabulary of the play invariants *)

(** The level index is the highest index of LEVELS whose threshold the
    score has reached, and the tick rate is the speed of that level. *)
Definition level_tuned (s : Session) : Prop :=
  exists lv,
    0 <= level_index s /\
    nth_error LEVELS (Z.to_nat (level_index s)) = Some lv /\
    lv_speed lv = moves_per_second s /\
    lv_score lv <= score s /\
    forall j lv', nth_error LEVELS j = Some lv' -> lv_score lv' <= score s ->
                  Z.of_nat j <= level_index s.

(** The index and the rate are a row of the table. *)
Definition level_row (s : Session) : Prop :=
  exists lv, 0 <= level_index s /\
             nth_error LEVELS (Z.to_nat (level_index s)) = Some lv /\
             lv_speed lv = moves_per_second s.

(** What play keeps true of the snake and the scoreboard. *)
Definition play_state (s : Session) : Prop :=
  snake s <> [] /\
  Forall in_grid (snake s) /\
  score s = 10 * (Z.of_nat (List.length (snake s)) - 1) /\
  level_tuned s.

(** A call that neither raises nor leaves the typed model. *)
Definition returns_or_spins {A : Type} (r : result A) : Prop :=
  r = Timeout \/ exists a, r = Ok a.

(** A two-cell snake in the middle of the grid, heading right. *)
Definition two_cells : Machine :=
  mkMachine (session_of [(15, 10); (14, 10)] (1, 0) (9, 9) 10 0) fresh_world 2.

(** [centred (16, 10)] after the tick that eats, with [rng_low]. *)
Definition fed : Machine :=
  mkMachine (mkSession [(16, 10); (15, 10)] (1, 0) (0, 0) 10 0 5 0%Q false false 0)
            fresh_world 2.



(** A session with no snake cell at all. *)
Definition headless : Session := session_of [] (1, 0) (9, 9) 0 0.

(** ** on_draw *)

Definition CELL_SIZE : Z := 20.
Definition SCREEN_WIDTH : Z := CELL_SIZE * GRID_WIDTH.
Definition SCREEN_HEIGHT : Z := CELL_SIZE * GRID_HEIGHT.

Inductive color : Type :=
| DARK_SLATE_GRAY | DIM_GRAY | RED | GREEN | DARK_GREEN | WHITE | YELLOW.

(** The calls [on_draw] makes on the window, in order. *)
Inductive drawing : Type :=
| ClearWindow
| FilledRect (left right bottom top : Z) (c : color)
| FilledCircle (center_x center_y : Q) (radius : Z) (c : color)
| DrawText (text : string) (x y : Q) (c : color) (font_size : Z).

(** [str(n)] for an integer. *)
Definition py_str (n : Z) : string := NilZero.string_of_int (Z.to_int n).

(** [range(n)] *)
Definition py_range (n : Z) : list Z := map Z.of_nat (seq 0 (Z.to_nat n)).

Definition draw_grid : list drawing :=
  flat_map (fun x =>
    map (fun y =>
      FilledRect (x * CELL_SIZE) ((x + 1) * CELL_SIZE - 1)
                 (y * CELL_SIZE) ((y + 1) * CELL_SIZE - 1)
                 (if (x + y) mod 2 =? 0 then DARK_SLATE_GRAY else DIM_GRAY))
      (py_range GRID_HEIGHT))
    (py_range GRID_WIDTH).

(** The centre is a float in the source ([CELL_SIZE / 2] is 10.0); on
    integers of this size the sum is exact. *)
Definition draw_food (s : Session) : drawing :=
  let '(fx, fy) := food s in
  FilledCircle (inject_Z (fx * CELL_SIZE) + inject_Z CELL_SIZE / 2)
               (inject_Z (fy * CELL_SIZE) + inject_Z CELL_SIZE / 2)
               (CELL_SIZE / 2 - 2) RED.

(** [for i, (sx, sy) in enumerate(self.snake)], from index [i] on. *)
Fixpoint draw_segments (i : nat) (cells : list Pos) : list drawing :=
  match cells with
  | [] => []
  | (sx, sy) :: rest =>
      FilledRect (sx * CELL_SIZE) ((sx + 1) * CELL_SIZE - 2)
                 (sy * CELL_SIZE) ((sy + 1) * CELL_SIZE - 2)
                 (if Nat.eqb i 0 then GREEN else DARK_GREEN)
      :: draw_segments (S i) rest
  end.

Definition draw_hud (s : Session) : list drawing :=
  [ DrawText ("Score: " ++ py_str (score s))
             (inject_Z 10) (inject_Z (SCREEN_HEIGHT - 22)) WHITE 14;
    DrawText ("Level: " ++ py_str (level_index s + 1))
             (inject_Z 150) (inject_Z (SCREEN_HEIGHT - 22)) WHITE 14;
    DrawText ("High: " ++ py_str (highscore s))
             (inject_Z 280) (inject_Z (SCREEN_HEIGHT - 22)) WHITE 14 ].

Definition on_draw (s : Session) : list drawing :=
  [ClearWindow]
  ++ draw_grid
  ++ [draw_food s]
  ++ draw_segments 0 (snake s)
  ++ draw_hud s
  ++ (if paused s
      then [DrawText "Paused" (inject_Z SCREEN_WIDTH / 2 - inject_Z 40)
                     (inject_Z SCREEN_HEIGHT / 2) YELLOW 24]
      else [])
  ++ (if game_over s
      then [DrawText "GAME OVER - Press ENTER to restart"
                     (inject_Z SCREEN_WIDTH / 2 - inject_Z 180)
                     (inject_Z SCREEN_HEIGHT / 2) RED 18]
      else []).


(** The snake rectangles among the drawings, by their colours. *)
Definition is_head_rect (d : drawing) : bool :=
  match d with
  | FilledRect _ _ _ _ GREEN => true
  | _ => false
  end.

Definition is_body_rect (d : drawing) : bool :=
  match d with
  | FilledRect _ _ _ _ DARK_GREEN => true
  | _ => false
  end.



(** * Properties *)

(** ** Cells and membership *)

Lemma pos_eqb_eq (p q : Pos) : pos_eqb p q = true <-> p = q.
Proof.
  destruct p as [px py], q as [qx qy]; unfold pos_eqb; simpl.
  rewrite andb_true_iff, !Z.eqb_eq.
  split; [intros [-> ->]; reflexivity | intros E; inversion E; auto].
Qed.

Lemma pos_eqb_neq (p q : Pos) : pos_eqb p q = false <-> p <> q.
Proof.
  rewrite <- pos_eqb_eq. destruct (pos_eqb p q); split; congruence.
Qed.

Lemma pos_in_In (p : Pos) (cells : list Pos) : pos_in p cells = true <-> In p cells.
Proof.
  unfold pos_in. rewrite existsb_exists. split.
  - intros [q [Hq E]]. apply pos_eqb_eq in E. subst. exact Hq.
  - intros H. exists p. split; [exact H | apply pos_eqb_eq; reflexivity].
Qed.

Lemma pos_in_not_In (p : Pos) (cells : list Pos) :
  pos_in p cells = false <-> ~ In p cells.
Proof.
  rewrite <- pos_in_In. destruct (pos_in p cells); split; congruence.
Qed.

Lemma collides_false (p : Pos) (cells : list Pos) :
  collides p cells = false <-> in_grid p /\ ~ In p cells.
Proof.
  unfold collides, in_grid. destruct p as [hx hy]. simpl.
  rewrite !orb_false_iff, pos_in_not_In, !Z.ltb_ge, !Z.geb_leb, !Z.leb_gt.
  tauto.
Qed.

Lemma collides_member (p : Pos) (cells : list Pos) :
  In p cells -> collides p cells = true.
Proof.
  intros H. destruct (collides p cells) eqn:E; [reflexivity |].
  apply collides_false in E. tauto.
Qed.

Lemma last_In {A : Type} (x : A) (xs : list A) (d : A) : In (last (x :: xs) d) (x :: xs).
Proof.
  revert x. induction xs as [| y ys IH]; intros x.
  - left. reflexivity.
  - right. apply (IH y).
Qed.

(** ** The collision branch of a tick *)

Lemma game_tick_collision (fuel : nat) (rng : Rng) (m : Machine) (head : Pos) :
  hd_error (snake (self m)) = Some head ->
  collides (new_head_of head (direction (self m))) (snake (self m)) = true ->
  game_tick fuel rng m
  = Ok (save_highscore (with_self (set_game_over true (self m)) m)).
Proof.
  intros Hhd Hc. unfold game_tick.
  destruct (snake (self m)) as [| h t] eqn:Es; [discriminate |].
  simpl in Hhd. injection Hhd as ->. rewrite Hc. reflexivity.
Qed.

Lemma save_highscore_frame (m : Machine) :
  let s := self m in
  let s' := self (save_highscore m) in
  snake s' = snake s /\ direction s' = direction s /\ food s' = food s /\
  score s' = score s /\ level_index s' = level_index s /\
  moves_per_second s' = moves_per_second s /\
  tick_accumulator s' = tick_accumulator s /\
  game_over s' = game_over s /\ paused s' = paused s.
Proof.
  unfold save_highscore.
  destruct (writable (highscore_file (world m))); simpl; repeat split; reflexivity.
Qed.

(** ** C1: a step onto the current tail is fatal *)

(** C1.  Collision is decided against the snake as it is before the move:
    when the new head (head plus direction) is the snake's current last
    cell, the tick returns with [game_over] set and the body not moved,
    whatever the food cell is. *)
Theorem tick_into_tail_is_fatal (fuel : nat) (rng : Rng) (m : Machine) (head : Pos) :
  hd_error (snake (self m)) = Some head ->
  new_head_of head (direction (self m)) = last (snake (self m)) head ->
  exists m', game_tick fuel rng m = Ok m' /\
             game_over (self m') = true /\
             snake (self m') = snake (self m).
Proof.
  intros Hhd Htail.
  assert (Hc : collides (new_head_of head (direction (self m))) (snake (self m)) = true).
  { apply collides_member. rewrite Htail.
    destruct (snake (self m)) as [| h t]; [discriminate |]. apply last_In. }
  rewrite (game_tick_collision fuel rng m head Hhd Hc).
  eexists. split; [reflexivity |].
  pose proof (save_highscore_frame (with_self (set_game_over true (self m)) m)) as F.
  simpl in F. destruct F as (Fs & _ & _ & _ & _ & _ & _ & Fg & _).
  split; assumption.
Qed.

Lemma tick_into_tail_is_fatal_witness :
  exists m', game_tick 0 rng_low curled = Ok m' /\
             game_over (self m') = true /\
             snake (self m') = snake (self curled).
Proof.
  apply (tick_into_tail_is_fatal 0 rng_low curled (1, 1)); reflexivity.
Defined.

(** ** C4: what a colliding tick does to the high score *)

(** C4, as the code has it.  A colliding tick returns with [game_over] set.
    When highscore.json can be written, the high score becomes the larger
    of the previous high score and the score, and the file holds it; when
    the write fails the exception is swallowed and both stay as they were. *)
Theorem tick_collision_highscore (fuel : nat) (rng : Rng) (m : Machine) (head : Pos) :
  hd_error (snake (self m)) = Some head ->
  collides (new_head_of head (direction (self m))) (snake (self m)) = true ->
  exists m', game_tick fuel rng m = Ok m' /\
    game_over (self m') = true /\
    (writable (highscore_file (world m)) = true ->
       highscore (self m') = Z.max (highscore (self m)) (score (self m)) /\
       content (highscore_file (world m'))
       = Some (JObj [("highscore"%string, JInt (highscore (self m')))])) /\
    (writable (highscore_file (world m)) = false ->
       highscore (self m') = highscore (self m) /\ world m' = world m).
Proof.
  intros Hhd Hc. rewrite (game_tick_collision fuel rng m head Hhd Hc).
  eexists. split; [reflexivity |].
  unfold save_highscore. simpl.
  destruct (writable (highscore_file (world m))); simpl.
  - repeat split; try reflexivity; discriminate.
  - repeat split; try reflexivity; discriminate.
Qed.

Lemma tick_collision_highscore_witness :
  exists m', game_tick 0 rng_low (at_wall fresh_world) = Ok m' /\
    game_over (self m') = true /\
    (writable (highscore_file (world (at_wall fresh_world))) = true ->
       highscore (self m') = Z.max 0 10 /\
       content (highscore_file (world m'))
       = Some (JObj [("highscore"%string, JInt (highscore (self m')))])) /\
    (writable (highscore_file (world (at_wall fresh_world))) = false ->
       highscore (self m') = 0 /\ world m' = world (at_wall fresh_world)).
Proof.
  apply (tick_collision_highscore 0 rng_low (at_wall fresh_world) (0, 10)); reflexivity.
Defined.

(** C4 as stated fails: with highscore.json not writable, the snake at the
    left wall with score 10 and high score 0 dies and the high score stays 0. *)
Lemma tick_collision_highscore_unwritable :
  exists m', game_tick 0 rng_low (at_wall readonly_world) = Ok m' /\
    collides (new_head_of (0, 10) (direction (self (at_wall readonly_world))))
             (snake (self (at_wall readonly_world))) = true /\
    game_over (self m') = true /\
    highscore (self m')
    <> Z.max (highscore (self (at_wall readonly_world)))
             (score (self (at_wall readonly_world))).
Proof.
  eexists. split; [reflexivity |]. split; [reflexivity |].
  split; [reflexivity |]. simpl. discriminate.
Qed.

(** ** C10: what a colliding tick leaves alone *)

(** C10.  A colliding tick changes no session field other than [game_over]
    and [highscore]: snake, direction, food, score, level index, tick rate,
    accumulator and paused flag are as before. *)
Theorem tick_collision_frame (fuel : nat) (rng : Rng) (m : Machine) (head : Pos) :
  hd_error (snake (self m)) = Some head ->
  collides (new_head_of head (direction (self m))) (snake (self m)) = true ->
  exists m', game_tick fuel rng m = Ok m' /\
    snake (self m') = snake (self m) /\
    direction (self m') = direction (self m) /\
    food (self m') = food (self m) /\
    score (self m') = score (self m) /\
    level_index (self m') = level_index (self m) /\
    moves_per_second (self m') = moves_per_second (self m) /\
    tick_accumulator (self m') = tick_accumulator (self m) /\
    paused (self m') = paused (self m).
Proof.
  intros Hhd Hc. rewrite (game_tick_collision fuel rng m head Hhd Hc).
  eexists. split; [reflexivity |].
  pose proof (save_highscore_frame (with_self (set_game_over true (self m)) m)) as F.
  simpl in F. tauto.
Qed.

Lemma tick_collision_frame_witness :
  exists m', game_tick 0 rng_low (at_wall fresh_world) = Ok m' /\
    snake (self m') = [(0, 10)] /\
    direction (self m') = (-1, 0) /\
    food (self m') = (9, 9) /\
    score (self m') = 10 /\
    level_index (self m') = 0 /\
    moves_per_second (self m') = 5 /\
    tick_accumulator (self m') = 0%Q /\
    paused (self m') = false.
Proof.
  apply (tick_collision_frame 0 rng_low (at_wall fresh_world) (0, 10)); reflexivity.
Defined.

(** ** The sampling loop of spawn_food *)

Lemma draw_cell_in_grid (rng : Rng) (d : nat) : rng_sound rng -> in_grid (draw_cell rng d).
Proof.
  intros Hr. unfold in_grid, draw_cell, GRID_WIDTH, GRID_HEIGHT. simpl.
  assert (Hx : 0 <= 29) by lia. assert (Hy : 0 <= 19) by lia.
  pose proof (Hr d 0 29 Hx). pose proof (Hr (S d) 0 19 Hy). lia.
Qed.

Lemma spawn_food_loop_step (fuel : nat) (rng : Rng) (d : nat) (cells : list Pos) :
  spawn_food_loop (S fuel) rng d cells
  = if negb (pos_in (draw_cell rng d) cells) then Ok (draw_cell rng d, S (S d))
    else spawn_food_loop fuel rng (S (S d)) cells.
Proof. reflexivity. Qed.

Lemma draw_index_next (d n : nat) : (d + 2 * S n = S (S d) + 2 * n)%nat.
Proof. lia. Qed.

Lemma draw_index_first (d : nat) : (d + 2 * 0 = d)%nat.
Proof. lia. Qed.

(** Whatever the loop returns was drawn at some iteration and is off the
    snake; the loop raises nothing. *)
Lemma spawn_food_loop_sound (rng : Rng) (cells : list Pos) (fuel d : nat) :
  (exists n, (n < fuel)%nat /\ free_draw rng d cells n /\
             spawn_food_loop fuel rng d cells
             = Ok (draw_cell rng (d + 2 * n), S (S (d + 2 * n))))
  \/ spawn_food_loop fuel rng d cells = Timeout.
Proof.
  revert d. induction fuel as [| fuel IH]; intros d.
  - right. reflexivity.
  - rewrite spawn_food_loop_step.
    destruct (pos_in (draw_cell rng d) cells) eqn:E; cbn [negb].
    + destruct (IH (S (S d))) as [(n & Hn & Hf & Hr) | Ht].
      * left. exists (S n). unfold free_draw in *.
        rewrite draw_index_next. repeat split; [lia | exact Hf | exact Hr].
      * right. exact Ht.
    + left. exists 0%nat. unfold free_draw. rewrite draw_index_first.
      repeat split; [lia | exact E].
Qed.

(** With more fuel than the index of a free draw the loop returns. *)
Lemma spawn_food_loop_complete (rng : Rng) (cells : list Pos) (n fuel d : nat) :
  (n < fuel)%nat -> free_draw rng d cells n ->
  exists r, spawn_food_loop fuel rng d cells = Ok r.
Proof.
  revert fuel d. induction n as [| n IH]; intros fuel d Hn Hf;
    (destruct fuel as [| fuel]; [lia |]); rewrite spawn_food_loop_step.
  - unfold free_draw in Hf. rewrite draw_index_first in Hf.
    rewrite Hf. eexists. reflexivity.
  - destruct (pos_in (draw_cell rng d) cells); cbn [negb].
    + apply IH; [lia |]. unfold free_draw in *.
      rewrite <- draw_index_next. exact Hf.
    + eexists. reflexivity.
Qed.

Lemma spawn_food_cases (fuel : nat) (rng : Rng) (m : Machine) :
  (exists n, (n < fuel)%nat /\ free_draw rng (draws m) (snake (self m)) n /\
     spawn_food fuel rng m
     = Ok (mkMachine (set_food (draw_cell rng (draws m + 2 * n)) (self m))
                     (world m) (S (S (draws m + 2 * n)))))
  \/ spawn_food fuel rng m = Timeout.
Proof.
  unfold spawn_food.
  destruct (spawn_food_loop_sound rng (snake (self m)) fuel (draws m))
    as [(n & Hn & Hf & Hr) | Ht].
  - left. exists n. rewrite Hr. repeat split; assumption.
  - right. rewrite Ht. reflexivity.
Qed.

Lemma spawn_food_returns (fuel n : nat) (rng : Rng) (m : Machine) :
  (n < fuel)%nat -> free_draw rng (draws m) (snake (self m)) n ->
  exists m', spawn_food fuel rng m = Ok m'.
Proof.
  intros Hn Hf. unfold spawn_food.
  destruct (spawn_food_loop_complete rng _ n fuel (draws m) Hn Hf) as [r Hr].
  rewrite Hr. simpl. eexists. reflexivity.
Qed.

Lemma check_level_up_from_frame (idxs : list nat) (s : Session) :
  let s' := check_level_up_from idxs s in
  snake s' = snake s /\ direction s' = direction s /\ food s' = food s /\
  score s' = score s /\ tick_accumulator s' = tick_accumulator s /\
  game_over s' = game_over s /\ paused s' = paused s /\
  highscore s' = highscore s.
Proof.
  induction idxs as [| idx rest IH]; simpl.
  - repeat split; reflexivity.
  - destruct (nth_error LEVELS idx) as [lv |]; [| repeat split; reflexivity].
    destruct (score s >=? lv_score lv); [| exact IH].
    destruct (negb (Z.of_nat idx =? level_index s)); repeat split; reflexivity.
Qed.

(** ** C2: length and head after a tick without collision *)

Lemma removelast_cons_length {A : Type} (x : A) (xs : list A) :
  xs <> [] ->
  List.length (removelast (x :: xs)) = List.length xs /\
  hd_error (removelast (x :: xs)) = Some x.
Proof.
  intros Hne. destruct xs as [| y ys]; [congruence |].
  split; [| reflexivity].
  change (removelast (x :: y :: ys)) with (x :: removelast (y :: ys)).
  simpl List.length. f_equal.
  clear Hne x. revert y. induction ys as [| z zs IH]; intros y; [reflexivity |].
  change (removelast (y :: z :: zs)) with (y :: removelast (z :: zs)).
  simpl List.length. f_equal. apply IH.
Qed.

(** C2.  In a tick whose new head neither leaves the grid nor hits a cell
    of the snake as it was: if the new head is not the food cell the tick
    returns a snake of the same length; if it is the food cell, every
    returned snake is one longer, and the tick does return once the
    generator offers a free cell within the fuel.  In both cases the first
    cell of the new snake is the new head. *)
Theorem tick_advances (fuel : nat) (rng : Rng) (m : Machine) (head : Pos) :
  hd_error (snake (self m)) = Some head ->
  let new_head := new_head_of head (direction (self m)) in
  collides new_head (snake (self m)) = false ->
  (new_head <> food (self m) ->
     exists m', game_tick fuel rng m = Ok m' /\
       List.length (snake (self m')) = List.length (snake (self m)) /\
       hd_error (snake (self m')) = Some new_head)
  /\
  (new_head = food (self m) ->
     (forall m', game_tick fuel rng m = Ok m' ->
        List.length (snake (self m')) = S (List.length (snake (self m))) /\
        hd_error (snake (self m')) = Some new_head)
     /\
     (forall n, (n < fuel)%nat ->
        free_draw rng (draws m) (new_head :: snake (self m)) n ->
        exists m', game_tick fuel rng m = Ok m')).
Proof.
  intros Hhd new_head Hc. unfold game_tick.
  destruct (snake (self m)) as [| h t] eqn:Es; [discriminate |].
  simpl in Hhd. injection Hhd as ->. fold new_head. rewrite Hc.
  split.
  - intros Hnf. apply pos_eqb_neq in Hnf. simpl food. rewrite Hnf.
    eexists. split; [reflexivity |]. cbn [snake self with_self set_snake].
    apply (removelast_cons_length new_head (head :: t)). discriminate.
  - intros Hf. apply pos_eqb_eq in Hf. simpl food. rewrite Hf.
    set (m1 := with_self _ m).
    split.
    + intros m' Hm'.
      destruct (spawn_food_cases fuel rng m1) as [(n & _ & _ & Hr) | Ht];
        [rewrite Hr in Hm' | rewrite Ht in Hm'; discriminate].
      cbn [bind] in Hm'. injection Hm' as <-. cbn [self with_self].
      unfold check_level_up.
      match goal with
      | |- context [check_level_up_from ?l ?x] =>
          destruct (check_level_up_from_frame l x) as (Fs & _)
      end.
      rewrite Fs. split; reflexivity.
    + intros n Hn Hfree.
      destruct (spawn_food_returns fuel n rng m1 Hn Hfree) as [m2 Hm2].
      rewrite Hm2. simpl. eexists. reflexivity.
Qed.

Lemma tick_advances_witness :
  (exists m', game_tick 1 rng_low (centred (9, 9)) = Ok m' /\
     List.length (snake (self m')) = 1%nat /\
     hd_error (snake (self m')) = Some (16, 10))
  /\
  (exists m', game_tick 1 rng_low (centred (16, 10)) = Ok m' /\
     List.length (snake (self m')) = 2%nat /\
     hd_error (snake (self m')) = Some (16, 10)).
Proof.
  split.
  - apply (tick_advances 1 rng_low (centred (9, 9)) (15, 10)).
    + reflexivity.
    + reflexivity.
    + simpl. discriminate.
  - destruct (tick_advances 1 rng_low (centred (16, 10)) (15, 10)) as [_ Hfood].
    + reflexivity.
    + reflexivity.
    + destruct Hfood as [Hany Hret]; [reflexivity |].
      destruct (Hret 0%nat) as [m' Hm']; [lia | reflexivity |].
      exists m'. split; [exact Hm' | apply (Hany m' Hm')].
Defined.

(** ** C9: termination of spawn_food *)

(** C9, as the code has it.  Rejection sampling returns as soon as the
    generator offers a cell off the snake: if iteration [n] draws such a
    cell, then with more than [n] iterations allowed [spawn_food] returns,
    the snake is untouched, the food is off the snake, and it is inside the
    grid when the generator respects the bounds of [randint]. *)
Theorem spawn_food_terminates (fuel n : nat) (rng : Rng) (m : Machine) :
  (n < fuel)%nat ->
  free_draw rng (draws m) (snake (self m)) n ->
  exists m', spawn_food fuel rng m = Ok m' /\
    snake (self m') = snake (self m) /\
    ~ In (food (self m')) (snake (self m)) /\
    (rng_sound rng -> in_grid (food (self m'))).
Proof.
  intros Hn Hfree.
  destruct (spawn_food_returns fuel n rng m Hn Hfree) as [m' Hm'].
  exists m'. split; [exact Hm' |].
  destruct (spawn_food_cases fuel rng m) as [(k & _ & Hk & Hr) | Ht];
    [| congruence].
  rewrite Hr in Hm'. injection Hm' as <-. cbn [self snake food set_food].
  split; [reflexivity |]. split.
  - apply pos_in_not_In. exact Hk.
  - intros Hs. apply draw_cell_in_grid. exact Hs.
Qed.

Lemma spawn_food_terminates_witness :
  exists m', spawn_food 1 rng_low (centred (9, 9)) = Ok m' /\
    snake (self m') = [(15, 10)] /\
    ~ In (food (self m')) [(15, 10)] /\
    (rng_sound rng_low -> in_grid (food (self m'))).
Proof.
  apply (spawn_food_terminates 1 0 rng_low (centred (9, 9))); [lia | reflexivity].
Defined.

Lemma rng_low_sound : rng_sound rng_low.
Proof. intros k lo hi H. unfold rng_low. lia. Qed.

Lemma spawn_food_loop_cornered (fuel d : nat) :
  spawn_food_loop fuel rng_low d [(0, 0)] = Timeout.
Proof.
  revert d. induction fuel as [| fuel IH]; intros d; [reflexivity |].
  rewrite spawn_food_loop_step. change (draw_cell rng_low d) with (0, 0).
  cbn [pos_in existsb pos_eqb fst snd Z.eqb andb orb negb]. apply IH.
Qed.

(** C9 as stated fails: the snake on (0,0) leaves 599 cells free, yet a
    generator that always answers its lower bound, which [randint] allows,
    draws (0,0) for ever and [spawn_food] returns for no amount of fuel. *)
Lemma spawn_food_can_spin :
  rng_sound rng_low /\
  (in_grid (1, 0) /\ ~ In (1, 0) (snake (self cornered))) /\
  Z.of_nat (List.length (snake (self cornered))) < GRID_WIDTH * GRID_HEIGHT /\
  ~ (exists fuel m', spawn_food fuel rng_low cornered = Ok m').
Proof.
  split; [exact rng_low_sound |]. split.
  - split; [unfold in_grid; simpl; unfold GRID_WIDTH, GRID_HEIGHT; lia |].
    simpl. intros [E | []]. discriminate.
  - split; [reflexivity |].
    intros (fuel & m' & H). unfold spawn_food in H.
    change (snake (self cornered)) with [(0, 0)] in H.
    rewrite spawn_food_loop_cornered in H. discriminate.
Qed.

(** ** C7: the level lookup *)

Lemma level_thresholds (j : nat) (lv : Level) :
  nth_error LEVELS j = Some lv ->
  (j = 0%nat /\ lv_score lv = 0) \/ (j = 1%nat /\ lv_score lv = 50) \/
  (j = 2%nat /\ lv_score lv = 100) \/ (j = 3%nat /\ lv_score lv = 150).
Proof.
  destruct j as [| [| [| [| j]]]]; simpl; intros H.
  - injection H as <-. auto.
  - injection H as <-. auto.
  - injection H as <-. auto 6.
  - injection H as <-. auto 6.
  - destruct j; discriminate.
Qed.

(** The index the loop of [check_level_up] stops at, by score range. *)
Lemma check_level_up_index (s : Session) :
  0 <= score s ->
  let i := level_index (check_level_up s) in
  (150 <= score s /\ i = 3) \/ (100 <= score s < 150 /\ i = 2) \/
  (50 <= score s < 100 /\ i = 1) \/ (score s < 50 /\ i = 0).
Proof.
  intros H0. unfold check_level_up. cbn [LEVELS List.length seq rev app].
  cbn [check_level_up_from]. unfold LEVELS. cbn [nth_error lv_score lv_speed].
  rewrite !Z.geb_leb.
  destruct (Z.leb_spec 150 (score s)).
  { left. split; [assumption |].
    destruct (Z.eqb_spec (Z.of_nat 3) (level_index s)) as [E | E];
      cbn [negb]; [symmetry; exact E | reflexivity]. }
  destruct (Z.leb_spec 100 (score s)).
  { right; left. split; [lia |].
    destruct (Z.eqb_spec (Z.of_nat 2) (level_index s)) as [E | E];
      cbn [negb]; [symmetry; exact E | reflexivity]. }
  destruct (Z.leb_spec 50 (score s)).
  { right; right; left. split; [lia |].
    destruct (Z.eqb_spec (Z.of_nat 1) (level_index s)) as [E | E];
      cbn [negb]; [symmetry; exact E | reflexivity]. }
  destruct (Z.leb_spec 0 (score s)); [| lia].
  right; right; right. split; [lia |].
  destruct (Z.eqb_spec (Z.of_nat 0) (level_index s)) as [E | E];
    cbn [negb]; [symmetry; exact E | reflexivity].
Qed.

(** C7.  For a non-negative score, the level index that [check_level_up]
    leaves is an index of LEVELS whose threshold is at most the score, and
    no index with such a threshold is higher; it does not decrease when the
    score grows, and it is 0 at score 0. *)
Theorem check_level_up_highest (s s2 : Session) :
  0 <= score s ->
  score s <= score s2 ->
  let i := level_index (check_level_up s) in
  (exists lv, 0 <= i /\ nth_error LEVELS (Z.to_nat i) = Some lv /\
              lv_score lv <= score s) /\
  (forall j lv, nth_error LEVELS j = Some lv -> lv_score lv <= score s ->
                Z.of_nat j <= i) /\
  i <= level_index (check_level_up s2) /\
  (score s = 0 -> i = 0).
Proof.
  intros H0 Hle i.
  pose proof (check_level_up_index s H0) as Hi. fold i in Hi.
  assert (H02 : 0 <= score s2) by lia.
  pose proof (check_level_up_index s2 H02) as Hi2. cbv zeta in Hi, Hi2.
  repeat split.
  - destruct Hi as [[? ->] | [[? ->] | [[? ->] | [? ->]]]];
      eexists; (split; [lia |]); (split; [reflexivity |]); simpl; lia.
  - intros j lv Hj Hlv. apply level_thresholds in Hj.
    destruct Hj as [[-> E] | [[-> E] | [[-> E] | [-> E]]]]; rewrite E in Hlv;
      destruct Hi as [[? ->] | [[? ->] | [[? ->] | [? ->]]]]; simpl; lia.
  - lia.
  - intros Hz. lia.
Qed.

Lemma check_level_up_highest_witness :
  let i := level_index (check_level_up (session_of [(3, 3)] (1, 0) (9, 9) 50 0)) in
  (exists lv, 0 <= i /\ nth_error LEVELS (Z.to_nat i) = Some lv /\ lv_score lv <= 50) /\
  (forall j lv, nth_error LEVELS j = Some lv -> lv_score lv <= 50 -> Z.of_nat j <= i) /\
  i <= level_index (check_level_up (session_of [(3, 3)] (1, 0) (9, 9) 120 0)) /\
  (50 = 0 -> i = 0).
Proof.
  apply (check_level_up_highest (session_of [(3, 3)] (1, 0) (9, 9) 50 0)
           (session_of [(3, 3)] (1, 0) (9, 9) 120 0)); simpl; lia.
Defined.

(** ** C8: direction keys *)

(** C8.  An arrow key whose direction is not the exact reverse of the
    current direction sets the direction to the requested one and changes
    nothing else; when it is the exact reverse, the key press changes
    nothing at all. *)
Theorem on_key_press_direction (fuel : nat) (rng : Rng) (k : key) (d : Pos) (m : Machine) :
  key_delta k = Some d ->
  (direction (self m) <> opposite d ->
     on_key_press fuel rng k m = Ok (with_self (set_direction d (self m)) m)) /\
  (direction (self m) = opposite d -> on_key_press fuel rng k m = Ok m).
Proof.
  intros Hk.
  destruct k; simpl in Hk; try discriminate; injection Hk as <-;
    unfold opposite; cbn [fst snd Z.opp Pos.succ]; unfold on_key_press; split; intros H.
  all: try (apply pos_eqb_neq in H; rewrite H; reflexivity).
  all: apply pos_eqb_eq in H; rewrite H; reflexivity.
Qed.

Lemma on_key_press_direction_witness :
  (direction (self (centred (9, 9))) <> opposite (0, 1) ->
     on_key_press 0 rng_low UP (centred (9, 9))
     = Ok (with_self (set_direction (0, 1) (self (centred (9, 9)))) (centred (9, 9)))) /\
  (direction (self (centred (9, 9))) = opposite (0, 1) ->
     on_key_press 0 rng_low UP (centred (9, 9)) = Ok (centred (9, 9))).
Proof.
  apply (on_key_press_direction 0 rng_low UP (0, 1) (centred (9, 9))). reflexivity.
Defined.

(** ** C3: snake and food stay consistent *)

Lemma consistent_ext (s s' : Session) :
  snake s' = snake s -> food s' = food s -> consistent s -> consistent s'.
Proof.
  unfold consistent. intros -> ->. tauto.
Qed.

Lemma In_removelast {A : Type} (x : A) (xs : list A) :
  In x (removelast xs) -> In x xs.
Proof.
  induction xs as [| y ys IH]; [intros [] |].
  destruct ys as [| z zs]; [intros [] |].
  change (removelast (y :: z :: zs)) with (y :: removelast (z :: zs)).
  intros [E | H]; [left; exact E | right; apply IH; exact H].
Qed.

Lemma NoDup_removelast {A : Type} (xs : list A) :
  NoDup xs -> NoDup (removelast xs).
Proof.
  induction xs as [| y ys IH]; intros H; [constructor |].
  destruct ys as [| z zs]; [constructor |].
  change (removelast (y :: z :: zs)) with (y :: removelast (z :: zs)).
  inversion H as [| ? ? Hy Hys]; subst.
  constructor; [| apply IH; exact Hys].
  intros Hin. apply Hy. apply In_removelast. exact Hin.
Qed.

Lemma save_highscore_consistent (m : Machine) :
  consistent (self m) -> consistent (self (save_highscore m)).
Proof.
  pose proof (save_highscore_frame m) as F. cbv zeta in F.
  destruct F as (Fs & _ & Ff & _). apply consistent_ext; assumption.
Qed.

Lemma check_level_up_consistent (s : Session) :
  consistent s -> consistent (check_level_up s).
Proof.
  pose proof (check_level_up_from_frame (rev (seq 0 (List.length LEVELS))) s) as F.
  cbv zeta in F. destruct F as (Fs & _ & Ff & _).
  apply consistent_ext; assumption.
Qed.

Section Invariant.

Variable rng : Rng.
Hypothesis rng_ok : rng_sound rng.

Lemma spawn_food_consistent (fuel : nat) (m m' : Machine) :
  snake (self m) <> [] -> NoDup (snake (self m)) ->
  spawn_food fuel rng m = Ok m' -> consistent (self m').
Proof.
  intros Hne Hnd Hm'.
  destruct (spawn_food_cases fuel rng m) as [(n & _ & Hf & Hr) | Ht];
    [| congruence].
  rewrite Hr in Hm'. injection Hm' as <-.
  unfold consistent. cbn [self snake food set_food].
  split; [exact Hne |]. split; [exact Hnd |]. split.
  - apply (draw_cell_in_grid rng _ rng_ok).
  - apply pos_in_not_In. exact Hf.
Qed.

Lemma game_tick_consistent (fuel : nat) (m m' : Machine) :
  consistent (self m) -> game_tick fuel rng m = Ok m' -> consistent (self m').
Proof.
  intros (Hne & Hnd & Hfg & Hfs). unfold game_tick.
  destruct (snake (self m)) as [| head t] eqn:Es; [discriminate |].
  set (new_head := new_head_of head (direction (self m))).
  destruct (collides new_head (head :: t)) eqn:Ec.
  - intros H. injection H as <-. apply save_highscore_consistent.
    unfold consistent. cbn [self with_self snake food set_game_over].
    rewrite Es. tauto.
  - apply collides_false in Ec. destruct Ec as [Hg Hfree].
    cbn [food set_snake].
    destruct (pos_eqb new_head (food (self m))) eqn:Ef.
    + set (m1 := with_self _ m).
      destruct (spawn_food fuel rng m1) as [m2 | | |] eqn:Esp; try discriminate.
      cbn [bind]. intros H. injection H as <-. cbn [self with_self].
      apply check_level_up_consistent.
      apply (spawn_food_consistent fuel m1 m2); [discriminate | | exact Esp].
      cbn [m1 self with_self snake set_score set_snake].
      constructor; assumption.
    + intros H. injection H as <-.
      apply pos_eqb_neq in Ef.
      unfold consistent. cbn [self with_self snake food set_snake].
      split; [| split; [| split; [exact Hfg |]]].
      * destruct t; discriminate.
      * apply (NoDup_removelast (new_head :: head :: t)).
        constructor; assumption.
      * intros Hin. apply (In_removelast _ (new_head :: head :: t)) in Hin.
        destruct Hin as [E | Hin]; [congruence | tauto].
Qed.

Lemma on_update_loop_consistent (n : nat) (ops : FloatOps) (fuel : nat)
  (interval : Q) (m m' : Machine) :
  consistent (self m) ->
  on_update_loop n ops fuel rng interval m = Ok m' -> consistent (self m').
Proof.
  revert m. induction n as [| n IH]; intros m Hc; [discriminate |].
  cbn [on_update_loop].
  destruct (fge ops (tick_accumulator (self m)) interval).
  - set (m0 := with_self _ m).
    destruct (game_tick fuel rng m0) as [m1 | | |] eqn:Et; try discriminate.
    cbn [bind]. apply IH.
    apply (game_tick_consistent fuel m0 m1); [| exact Et].
    revert Hc. apply consistent_ext; reflexivity.
  - intros H. injection H as <-. exact Hc.
Qed.

Lemma on_update_consistent (ops : FloatOps) (fuel : nat) (dt : Q) (m m' : Machine) :
  consistent (self m) ->
  on_update ops fuel rng dt m = Ok m' -> consistent (self m').
Proof.
  intros Hc. unfold on_update.
  destruct (paused (self m) || game_over (self m)).
  - intros H. injection H as <-. exact Hc.
  - destruct (moves_per_second _ =? 0); [discriminate |].
    apply on_update_loop_consistent.
    revert Hc. apply consistent_ext; reflexivity.
Qed.

Lemma load_highscore_frame (m m' : Machine) :
  load_highscore m = Ok m' ->
  snake (self m') = snake (self m) /\ food (self m') = food (self m).
Proof.
  unfold load_highscore.
  destruct (content (highscore_file (world m))) as [[| | | | | | fields] |];
    try (intros H; injection H as <-; split; reflexivity).
  destruct (dict_get "highscore" fields) as [[| | z | | | |] |];
    try discriminate; intros H; injection H as <-; split; reflexivity.
Qed.

Lemma reset_game_consistent (fuel : nat) (m m' : Machine) :
  reset_game fuel rng m = Ok m' -> consistent (self m').
Proof.
  unfold reset_game.
  set (m1 := with_self _ m).
  destruct (spawn_food fuel rng m1) as [m2 | | |] eqn:Esp; try discriminate.
  cbn [bind].
  destruct (py_index LEVELS _) as [lv | | |]; try discriminate.
  cbn [bind]. intros H. apply load_highscore_frame in H.
  destruct H as [Hs Hf].
  assert (Hc : consistent (self m2)).
  { apply (spawn_food_consistent fuel m1 m2); [discriminate | | exact Esp].
    cbn [m1 self with_self snake set_direction set_snake].
    constructor; [intros [] | constructor]. }
  revert Hc. apply consistent_ext; assumption.
Qed.

Lemma on_key_press_consistent (fuel : nat) (k : key) (m m' : Machine) :
  k <> KEY_L -> consistent (self m) ->
  on_key_press fuel rng k m = Ok m' -> consistent (self m').
Proof.
  intros Hk Hc. unfold on_key_press.
  destruct k; try congruence.
  1-4: match goal with
       | |- context [if ?b then _ else _] => destruct b
       end; intros H; injection H as <-; try exact Hc;
       revert Hc; apply consistent_ext; reflexivity.
  - intros H. injection H as <-. revert Hc. apply consistent_ext; reflexivity.
  - destruct (game_over (self m)).
    + apply reset_game_consistent.
    + intros H. injection H as <-. exact Hc.
  - intros H. injection H as <-. exact Hc.
  - intros H. injection H as <-. unfold save_game.
    destruct (writable (save_file (world m))); exact Hc.
Qed.

End Invariant.

(** C3.  With a generator that respects the bounds of [randint], every
    state reached from a reset by ticks, frame updates and key presses
    other than L (so: direction changes, pause toggles, and also restart,
    save and quit) has a non-empty snake of pairwise distinct cells, and a
    food cell inside the grid and on no snake cell. *)
Theorem reachable_consistent (rng : Rng) (m : Machine) :
  rng_sound rng -> reachable rng m -> consistent (self m).
Proof.
  intros Hr Hm. induction Hm as
    [fuel m0 m H | fuel m m' _ IH H | ops fuel dt m m' _ IH H | fuel k m m' _ IH Hk H].
  - exact (reset_game_consistent rng Hr fuel m0 m H).
  - exact (game_tick_consistent rng Hr fuel m m' IH H).
  - exact (on_update_consistent rng Hr ops fuel dt m m' IH H).
  - exact (on_key_press_consistent rng Hr fuel k m m' Hk IH H).
Qed.

Lemma reachable_consistent_witness : consistent (self started).
Proof.
  apply (reachable_consistent rng_low started).
  - intros k lo hi H. unfold rng_low. lia.
  - apply (reach_reset rng_low 1 cornered). reflexivity.
Defined.

(** ** C6: saving then loading *)

Lemma py_tuples_pos_json (cells : list Pos) :
  py_tuples (map pos_json cells) = Ok cells.
Proof.
  induction cells as [| [x y] cells IH]; [reflexivity |].
  cbn [map py_tuples]. rewrite IH. reflexivity.
Qed.

Lemma py_index_levels (i : Z) :
  -4 <= i < 4 -> exists lv, py_index LEVELS i = Ok lv.
Proof.
  intros H.
  assert (E : i = -4 \/ i = -3 \/ i = -2 \/ i = -1 \/
              i = 0 \/ i = 1 \/ i = 2 \/ i = 3) by lia.
  destruct E as [-> | [-> | [-> | [-> | [-> | [-> | [-> | ->]]]]]]];
    eexists; reflexivity.
Qed.

Lemma load_body_save_record (s live : Session) (lv : Level) :
  py_index LEVELS (level_index s) = Ok lv ->
  load_body (save_record s) live
  = Completed (mkSession (snake s) (direction s) (food s) (score s) (level_index s)
                 (lv_speed lv) (tick_accumulator live) false false (highscore live)).
Proof.
  intros Hlv. unfold load_body, save_record.
  cbn [py_getitem dict_get bind assign py_snake py_tuple py_int pos_json
       String.eqb Ascii.eqb Bool.eqb].
  rewrite py_tuples_pos_json.
  cbn [assign level_index set_level_index set_score set_food set_direction set_snake].
  rewrite Hlv. cbn [bind assign].
  destruct (direction s), (food s). reflexivity.
Qed.




(** ** C5: loading a record with a missing field *)

(** An unreadable slot leaves the session as it was. *)
Lemma load_game_unreadable (m : Machine) :
  content (save_file (world m)) = None ->
  exists m', load_game m = Ok m' /\ self m' = self m /\
             stdout (world m') = stdout (world m) ++ [FailedToLoad OSError].
Proof.
  intros H. unfold load_game. rewrite H. eexists. repeat split; reflexivity.
Qed.

(** C5, at a record that holds a snake and no direction: the load reports
    its failure (KeyError), yet the live snake has already been replaced by
    the stored one. *)
Theorem load_game_partial_update :
  exists m', load_game (started_with_slot snake_only_record) = Ok m' /\
    stdout (world m') = [FailedToLoad KeyError] /\
    snake (self (started_with_slot snake_only_record)) = [(15, 10)] /\
    snake (self m') = [(1, 2)] /\
    self m' <> self (started_with_slot snake_only_record).
Proof.
  eexists. split; [reflexivity |]. cbn.
  repeat split; try reflexivity. discriminate.
Qed.

(** * Further properties of play *)

(** ** What play keeps true *)

Lemma level_entries (j : nat) (lv : Level) :
  nth_error LEVELS j = Some lv ->
  (j = 0%nat /\ lv = mkLevel 0 5) \/ (j = 1%nat /\ lv = mkLevel 50 8) \/
  (j = 2%nat /\ lv = mkLevel 100 12) \/ (j = 3%nat /\ lv = mkLevel 150 15).
Proof.
  destruct j as [| [| [| [| j]]]]; simpl; intros H.
  - injection H as <-. auto.
  - injection H as <-. auto.
  - injection H as <-. auto 6.
  - injection H as <-. auto 6.
  - destruct j; discriminate.
Qed.

Lemma level_tuned_row (s : Session) : level_tuned s -> level_row s.
Proof.
  intros (lv & H0 & Hn & Hs & _). exists lv. auto.
Qed.

Lemma level_row_cases (s : Session) :
  level_row s ->
  (level_index s = 0 /\ moves_per_second s = 5) \/
  (level_index s = 1 /\ moves_per_second s = 8) \/
  (level_index s = 2 /\ moves_per_second s = 12) \/
  (level_index s = 3 /\ moves_per_second s = 15).
Proof.
  intros (lv & H0 & Hn & Hs).
  destruct (level_entries _ _ Hn) as [[E ->] | [[E ->] | [[E ->] | [E ->]]]];
    simpl in Hs; [left | right; left | right; right; left | right; right; right];
    split; try (symmetry; exact Hs); lia.
Qed.

(** [level_tuned] spelled out by score range. *)
Lemma level_tuned_intro (s : Session) (i : nat) (lv : Level) :
  nth_error LEVELS i = Some lv ->
  level_index s = Z.of_nat i ->
  moves_per_second s = lv_speed lv ->
  lv_score lv <= score s ->
  (forall j lv', nth_error LEVELS j = Some lv' -> lv_score lv' <= score s ->
                 (j <= i)%nat) ->
  level_tuned s.
Proof.
  intros Hn Hi Hm Hs Hmax. exists lv. rewrite Hi, Nat2Z.id.
  repeat split; try assumption; try lia; auto.
  intros j lv' Hj Hlv'. specialize (Hmax j lv' Hj Hlv'). lia.
Qed.

Ltac level_max :=
  let j := fresh "j" in let lv' := fresh "lv" in
  let Hj := fresh "Hj" in let Hlv := fresh "Hlv" in
  intros j lv' Hj Hlv; apply level_entries in Hj;
  destruct Hj as [[-> ->] | [[-> ->] | [[-> ->] | [-> ->]]]];
  simpl in Hlv; lia.

(** After [check_level_up] the index and the rate fit the score, provided
    they were a row of the table before. *)
Lemma check_level_up_tuned (s : Session) :
  0 <= score s -> level_row s -> level_tuned (check_level_up s).
Proof.
  intros H0 Hrow. apply level_row_cases in Hrow.
  unfold check_level_up. cbn [LEVELS List.length seq rev app].
  cbn [check_level_up_from]. unfold LEVELS at 1 2 3 4.
  cbn [nth_error lv_score lv_speed].
  rewrite !Z.geb_leb.
  destruct (Z.leb_spec 150 (score s)).
  { destruct (Z.eqb_spec (Z.of_nat 3) (level_index s)) as [E | E]; cbn [negb].
    - apply (level_tuned_intro s 3 (mkLevel 150 15));
        [reflexivity | lia | simpl in *; lia | simpl; lia | level_max].
    - apply (level_tuned_intro _ 3 (mkLevel 150 15));
        [reflexivity | reflexivity | reflexivity | simpl; lia | level_max]. }
  destruct (Z.leb_spec 100 (score s)).
  { destruct (Z.eqb_spec (Z.of_nat 2) (level_index s)) as [E | E]; cbn [negb].
    - apply (level_tuned_intro s 2 (mkLevel 100 12));
        [reflexivity | lia | simpl in *; lia | simpl; lia | level_max].
    - apply (level_tuned_intro _ 2 (mkLevel 100 12));
        [reflexivity | reflexivity | reflexivity | simpl; lia | level_max]. }
  destruct (Z.leb_spec 50 (score s)).
  { destruct (Z.eqb_spec (Z.of_nat 1) (level_index s)) as [E | E]; cbn [negb].
    - apply (level_tuned_intro s 1 (mkLevel 50 8));
        [reflexivity | lia | simpl in *; lia | simpl; lia | level_max].
    - apply (level_tuned_intro _ 1 (mkLevel 50 8));
        [reflexivity | reflexivity | reflexivity | simpl; lia | level_max]. }
  destruct (Z.leb_spec 0 (score s)); [| lia].
  destruct (Z.eqb_spec (Z.of_nat 0) (level_index s)) as [E | E]; cbn [negb].
  - apply (level_tuned_intro s 0 (mkLevel 0 5));
      [reflexivity | lia | simpl in *; lia | simpl; lia | level_max].
  - apply (level_tuned_intro _ 0 (mkLevel 0 5));
      [reflexivity | reflexivity | reflexivity | simpl; lia | level_max].
Qed.

Lemma play_state_ext (s s' : Session) :
  snake s' = snake s -> score s' = score s ->
  level_index s' = level_index s -> moves_per_second s' = moves_per_second s ->
  play_state s -> play_state s'.
Proof.
  unfold play_state, level_tuned. intros -> -> -> ->. tauto.
Qed.

Lemma Forall_removelast {A : Type} (P : A -> Prop) (xs : list A) :
  Forall P xs -> Forall P (removelast xs).
Proof.
  rewrite !Forall_forall. intros H x Hx. apply H. apply In_removelast. exact Hx.
Qed.

Lemma save_highscore_play_state (m : Machine) :
  play_state (self m) -> play_state (self (save_highscore m)).
Proof.
  pose proof (save_highscore_frame m) as F. cbv zeta in F.
  destruct F as (Fs & _ & _ & Fc & Fl & Fm & _).
  apply play_state_ext; assumption.
Qed.

Lemma check_level_up_play_state (s : Session) :
  snake s <> [] -> Forall in_grid (snake s) ->
  score s = 10 * (Z.of_nat (List.length (snake s)) - 1) ->
  level_row s -> play_state (check_level_up s).
Proof.
  intros Hne Hg Hsc Hrow.
  pose proof (check_level_up_from_frame (rev (seq 0 (List.length LEVELS))) s) as F.
  cbv zeta in F. destruct F as (Fs & _ & _ & Fc & _).
  fold (check_level_up s) in Fs, Fc.
  unfold play_state. rewrite Fs, Fc.
  repeat split; try assumption.
  apply check_level_up_tuned; [| exact Hrow].
  destruct (snake s); [congruence | simpl List.length in Hsc; lia].
Qed.

Lemma game_tick_play_state (fuel : nat) (rng : Rng) (m m' : Machine) :
  play_state (self m) -> game_tick fuel rng m = Ok m' -> play_state (self m').
Proof.
  intros Hp. pose proof Hp as (Hne & Hg & Hsc & Ht). unfold game_tick.
  destruct (snake (self m)) as [| head t] eqn:Es; [discriminate |].
  set (new_head := new_head_of head (direction (self m))).
  destruct (collides new_head (head :: t)) eqn:Ec.
  - intros H. injection H as <-. apply save_highscore_play_state.
    revert Hp. apply play_state_ext; reflexivity.
  - apply collides_false in Ec. destruct Ec as [Hin Hfree].
    cbn [food set_snake].
    destruct (pos_eqb new_head (food (self m))) eqn:Ef.
    + set (m1 := with_self _ m).
      destruct (spawn_food_cases fuel rng m1) as [(n & _ & _ & Hr) | Htm];
        [rewrite Hr | rewrite Htm; discriminate].
      cbn [bind]. intros H. injection H as <-. cbn [self with_self].
      apply check_level_up_play_state;
        cbn [m1 self with_self snake score level_index moves_per_second
             set_food set_score set_snake].
      * discriminate.
      * constructor; assumption.
      * rewrite Hsc. simpl List.length. lia.
      * apply level_tuned_row in Ht. exact Ht.
    + intros H. injection H as <-.
      unfold play_state. cbn [self with_self snake score set_snake].
      split; [destruct t; discriminate |].
      split; [apply (Forall_removelast in_grid (new_head :: head :: t));
              constructor; assumption |].
      split.
      * destruct (removelast_cons_length new_head (head :: t)) as [El _];
          [discriminate |].
        exact (eq_trans Hsc
                 (f_equal (fun k => 10 * (Z.of_nat k - 1)) (eq_sym El))).
      * destruct Ht as (lv & Ht). exists lv. exact Ht.
Qed.

Lemma game_tick_outcome (fuel : nat) (rng : Rng) (m : Machine) :
  snake (self m) <> [] -> returns_or_spins (game_tick fuel rng m).
Proof.
  intros Hne. unfold game_tick, returns_or_spins.
  destruct (snake (self m)) as [| head t]; [congruence |].
  destruct (collides _ _); [right; eexists; reflexivity |].
  destruct (pos_eqb _ _); [| right; eexists; reflexivity].
  set (m1 := with_self _ m).
  destruct (spawn_food_cases fuel rng m1) as [(n & _ & _ & Hr) | Htm].
  - rewrite Hr. right. eexists. reflexivity.
  - rewrite Htm. left. reflexivity.
Qed.

Lemma on_update_loop_play_state (n : nat) (ops : FloatOps) (fuel : nat) (rng : Rng)
  (interval : Q) (m : Machine) :
  play_state (self m) ->
  returns_or_spins (on_update_loop n ops fuel rng interval m) /\
  forall m', on_update_loop n ops fuel rng interval m = Ok m' -> play_state (self m').
Proof.
  revert m. induction n as [| n IH]; intros m Hp.
  - split; [left; reflexivity | discriminate].
  - cbn [on_update_loop].
    destruct (fge ops (tick_accumulator (self m)) interval).
    + set (m0 := with_self _ m).
      assert (Hp0 : play_state (self m0))
        by (revert Hp; apply play_state_ext; reflexivity).
      destruct (game_tick_outcome fuel rng m0 (proj1 Hp0)) as [Et | [m1 Et]];
        rewrite Et; cbn [bind].
      * split; [left; reflexivity | discriminate].
      * apply IH. exact (game_tick_play_state fuel rng m0 m1 Hp0 Et).
    + split; [right; eexists; reflexivity |].
      intros m' H. injection H as <-. exact Hp.
Qed.

Lemma on_update_play_state (ops : FloatOps) (fuel : nat) (rng : Rng) (dt : Q)
  (m : Machine) :
  play_state (self m) ->
  returns_or_spins (on_update ops fuel rng dt m) /\
  forall m', on_update ops fuel rng dt m = Ok m' -> play_state (self m').
Proof.
  intros Hp. unfold on_update.
  destruct (paused (self m) || game_over (self m)).
  - split; [right; eexists; reflexivity |].
    intros m' H. injection H as <-. exact Hp.
  - cbn [moves_per_second set_tick_accumulator].
    destruct (Z.eqb_spec (moves_per_second (self m)) 0) as [E | E].
    + destruct Hp as (_ & _ & _ & Ht). apply level_tuned_row in Ht.
      apply level_row_cases in Ht. lia.
    + apply on_update_loop_play_state.
      revert Hp. apply play_state_ext; reflexivity.
Qed.

Lemma reset_game_play_state (fuel : nat) (rng : Rng) (m m' : Machine) :
  reset_game fuel rng m = Ok m' -> play_state (self m').
Proof.
  unfold reset_game.
  set (m1 := with_self _ m).
  destruct (spawn_food_cases fuel rng m1) as [(n & _ & _ & Hr) | Htm];
    [rewrite Hr | rewrite Htm; discriminate].
  cbn [bind self set_level_index set_score level_index].
  change (py_index LEVELS 0) with (Ok (mkLevel 0 5)). cbn [bind lv_speed].
  unfold load_highscore. cbn [world highscore_file self with_self].
  assert (Hp : forall hs a,
    play_state (set_highscore hs
      (set_paused false (set_game_over false (set_tick_accumulator a
        (set_moves_per_second 5 (set_level_index 0 (set_score 0
          (set_food (draw_cell rng (draws m1 + 2 * n)) (self m1)))))))))).
  { intros hs a. unfold play_state.
    cbn [m1 self with_self snake score level_index moves_per_second set_highscore
         set_paused set_game_over set_tick_accumulator set_moves_per_second
         set_level_index set_score set_food set_direction set_snake].
    split; [discriminate |]. split.
    - constructor; [| constructor].
      unfold in_grid, GRID_WIDTH, GRID_HEIGHT. simpl.
      change (30 / 2) with 15. change (20 / 2) with 10. lia.
    - split; [reflexivity |].
      apply (level_tuned_intro _ 0 (mkLevel 0 5));
        [reflexivity | reflexivity | reflexivity | simpl; lia | level_max]. }
  destruct (content (highscore_file (world m1))) as [[| | | | | | fields] |];
    try (intros H; injection H as <-; apply Hp).
  destruct (dict_get "highscore" fields) as [[| | z | | | |] |];
    try discriminate; intros H; injection H as <-; apply Hp.
Qed.

Lemma on_key_press_play_state (fuel : nat) (rng : Rng) (k : key) (m m' : Machine) :
  k <> KEY_L -> play_state (self m) ->
  on_key_press fuel rng k m = Ok m' -> play_state (self m').
Proof.
  intros Hk Hp. unfold on_key_press.
  destruct k; try congruence.
  1-4: match goal with
       | |- context [if ?b then _ else _] => destruct b
       end; intros H; injection H as <-; try exact Hp;
       revert Hp; apply play_state_ext; reflexivity.
  - intros H. injection H as <-. revert Hp. apply play_state_ext; reflexivity.
  - destruct (game_over (self m)).
    + apply reset_game_play_state.
    + intros H. injection H as <-. exact Hp.
  - intros H. injection H as <-. exact Hp.
  - intros H. injection H as <-. unfold save_game.
    destruct (writable (save_file (world m))); exact Hp.
Qed.

Lemma reachable_play_state (rng : Rng) (m : Machine) :
  reachable rng m -> play_state (self m).
Proof.
  intros Hm. induction Hm as
    [fuel m0 m H | fuel m m' _ IH H | ops fuel dt m m' _ IH H | fuel k m m' _ IH Hk H].
  - exact (reset_game_play_state fuel rng m0 m H).
  - exact (game_tick_play_state fuel rng m m' IH H).
  - exact (proj2 (on_update_play_state ops fuel rng dt m IH) m' H).
  - exact (on_key_press_play_state fuel rng k m m' Hk IH H).
Qed.

Lemma started_reachable : reachable rng_low started.
Proof. apply (reach_reset rng_low 1 cornered). reflexivity. Qed.

(** X1.  No cell of the snake is ever outside the grid: in every state
    reached from a reset by ticks, frame updates and keys other than L,
    each snake cell has 0 <= x < GRID_WIDTH and 0 <= y < GRID_HEIGHT. *)
Theorem reachable_snake_in_grid (rng : Rng) (m : Machine) :
  reachable rng m -> Forall in_grid (snake (self m)).
Proof.
  intros Hm. apply reachable_play_state in Hm. apply Hm.
Qed.

Lemma reachable_snake_in_grid_witness : Forall in_grid (snake (self started)).
Proof.
  apply (reachable_snake_in_grid rng_low started). exact started_reachable.
Defined.

(** X2.  The score counts the growth of the snake: in every reachable
    state it is ten times the number of cells beyond the first. *)
Theorem reachable_score_is_growth (rng : Rng) (m : Machine) :
  reachable rng m ->
  score (self m) = 10 * (Z.of_nat (List.length (snake (self m))) - 1).
Proof.
  intros Hm. apply reachable_play_state in Hm. apply Hm.
Qed.

Lemma reachable_score_is_growth_witness :
  score (self started) = 10 * (Z.of_nat (List.length (snake (self started))) - 1).
Proof.
  apply (reachable_score_is_growth rng_low started). exact started_reachable.
Defined.

(** X3.  Level and tick rate follow the score: in every reachable state
    the level index is the highest index of LEVELS whose threshold the
    score has reached, and [moves_per_second] is the speed of that level
    (so it is never zero). *)
Theorem reachable_level_tuned (rng : Rng) (m : Machine) :
  reachable rng m ->
  level_tuned (self m) /\ 0 < moves_per_second (self m).
Proof.
  intros Hm. apply reachable_play_state in Hm.
  destruct Hm as (_ & _ & _ & Ht). split; [exact Ht |].
  apply level_tuned_row in Ht. apply level_row_cases in Ht. lia.
Qed.

Lemma reachable_level_tuned_witness :
  level_tuned (self started) /\ 0 < moves_per_second (self started).
Proof.
  apply (reachable_level_tuned rng_low started). exact started_reachable.
Defined.



(** ** Keys *)

(** X5.  Pressing SPACE flips the paused flag and nothing else (every
    other field of the session, the files, the console, the window and
    the generator stay as they are), and pressing it again gives back the
    very state it started from. *)
Theorem pause_toggle_twice (fuel : nat) (rng : Rng) (m : Machine) :
  exists m1,
    on_key_press fuel rng SPACE m = Ok m1 /\
    paused (self m1) = negb (paused (self m)) /\
    snake (self m1) = snake (self m) /\
    direction (self m1) = direction (self m) /\
    food (self m1) = food (self m) /\
    score (self m1) = score (self m) /\
    level_index (self m1) = level_index (self m) /\
    moves_per_second (self m1) = moves_per_second (self m) /\
    tick_accumulator (self m1) = tick_accumulator (self m) /\
    game_over (self m1) = game_over (self m) /\
    highscore (self m1) = highscore (self m) /\
    world m1 = world m /\
    draws m1 = draws m /\
    on_key_press fuel rng SPACE m1 = Ok m.
Proof.
  eexists. split; [reflexivity |].
  cbn [self world draws with_self set_paused snake direction food score
       level_index moves_per_second tick_accumulator game_over paused highscore].
  repeat (split; [reflexivity |]).
  destruct m as [s w d]. destruct s. cbn. rewrite negb_involutive. reflexivity.
Qed.

Lemma opposite_involutive (d : Pos) : opposite (opposite d) = d.
Proof.
  destruct d as [x y]. unfold opposite. cbn [fst snd]. f_equal; lia.
Qed.

Lemma on_key_press_arrow (fuel : nat) (rng : Rng) (k : key) (d : Pos) (m : Machine) :
  key_delta k = Some d -> direction (self m) <> opposite d ->
  on_key_press fuel rng k m = Ok (with_self (set_direction d (self m)) m).
Proof.
  intros Hk H.
  destruct k; simpl in Hk; try discriminate; injection Hk as <-;
    unfold opposite in H; cbn [fst snd Z.opp] in H; unfold on_key_press;
    apply pos_eqb_neq in H; rewrite H; reflexivity.
Qed.

(** X6.  The reverse guard looks at the direction field, not at the last
    move: a sideways arrow followed by the arrow against the old direction,
    both pressed before the next tick, turn the snake around; with a neck
    behind the head that tick runs into the neck and ends the game. *)
Theorem quick_turn_is_fatal (fuel : nat) (rng : Rng) (k1 k2 : key) (p : Pos)
  (m : Machine) (head neck : Pos) (t : list Pos) :
  key_delta k1 = Some p ->
  key_delta k2 = Some (opposite (direction (self m))) ->
  p <> direction (self m) ->
  p <> opposite (direction (self m)) ->
  snake (self m) = head :: neck :: t ->
  head = new_head_of neck (direction (self m)) ->
  exists m1 m2 m3,
    on_key_press fuel rng k1 m = Ok m1 /\
    on_key_press fuel rng k2 m1 = Ok m2 /\
    direction (self m2) = opposite (direction (self m)) /\
    game_tick fuel rng m2 = Ok m3 /\
    game_over (self m3) = true.
Proof.
  intros Hk1 Hk2 Hpd Hpo Hs Hhead.
  set (d := direction (self m)) in *.
  set (m1 := with_self (set_direction p (self m)) m).
  set (m2 := with_self (set_direction (opposite d) (self m1)) m1).
  assert (E1 : on_key_press fuel rng k1 m = Ok m1).
  { apply on_key_press_arrow; [exact Hk1 |]. fold d. intros E. apply Hpo.
    rewrite E. symmetry. apply opposite_involutive. }
  assert (E2 : on_key_press fuel rng k2 m1 = Ok m2).
  { apply on_key_press_arrow; [exact Hk2 |].
    cbn [m1 self with_self direction set_direction].
    rewrite opposite_involutive. exact Hpd. }
  assert (Hc : collides (new_head_of head (direction (self m2))) (snake (self m2)) = true).
  { apply collides_member.
    cbn [m2 m1 self with_self direction snake set_direction]. rewrite Hs.
    right. left. rewrite Hhead. fold d.
    destruct neck as [nx ny], d as [dx dy]. unfold new_head_of, opposite.
    cbn [fst snd]. f_equal; lia. }
  exists m1, m2. eexists.
  split; [exact E1 |]. split; [exact E2 |]. split; [reflexivity |].
  split.
  - apply (game_tick_collision fuel rng m2 head); [| exact Hc].
    cbn [m2 m1 self with_self snake set_direction]. rewrite Hs. reflexivity.
  - pose proof (save_highscore_frame (with_self (set_game_over true (self m2)) m2)) as F.
    cbv zeta in F. destruct F as (_ & _ & _ & _ & _ & _ & _ & Fg & _).
    rewrite Fg. reflexivity.
Qed.

Lemma quick_turn_is_fatal_witness :
  exists m1 m2 m3,
    on_key_press 0 rng_low UP two_cells = Ok m1 /\
    on_key_press 0 rng_low LEFT m1 = Ok m2 /\
    direction (self m2) = opposite (direction (self two_cells)) /\
    game_tick 0 rng_low m2 = Ok m3 /\
    game_over (self m3) = true.
Proof.
  apply (quick_turn_is_fatal 0 rng_low UP LEFT (0, 1) two_cells (15, 10) (14, 10) []);
    try reflexivity; simpl; discriminate.
Defined.

(** ** Ticks *)

(** X7.  Once a tick has collided, ticking again changes nothing: the
    second tick collides the same way and returns the same session and
    the same files.  (The loop of [on_update] keeps ticking after a death
    in the same frame.) *)
Theorem dead_tick_is_stable (fuel fuel' : nat) (rng : Rng) (m : Machine) (head : Pos) :
  hd_error (snake (self m)) = Some head ->
  collides (new_head_of head (direction (self m))) (snake (self m)) = true ->
  exists m1, game_tick fuel rng m = Ok m1 /\ game_tick fuel' rng m1 = Ok m1.
Proof.
  intros Hhd Hc. rewrite (game_tick_collision fuel rng m head Hhd Hc).
  eexists. split; [reflexivity |].
  set (m1 := save_highscore _).
  pose proof (save_highscore_frame (with_self (set_game_over true (self m)) m)) as F.
  cbv zeta in F. fold m1 in F. cbn [self with_self snake direction set_game_over] in F.
  destruct F as (Fs & Fd & _).
  rewrite (game_tick_collision fuel' rng m1 head);
    [| rewrite Fs; exact Hhd | rewrite Fs, Fd; exact Hc].
  f_equal. unfold m1, save_highscore.
  destruct m as [s w d]. destruct s. cbn.
  destruct (writable (highscore_file w)) eqn:Ew; cbn.
  - rewrite Z.max_l by lia. reflexivity.
  - rewrite Ew. reflexivity.
Qed.

Lemma dead_tick_is_stable_witness :
  exists m1, game_tick 0 rng_low (at_wall fresh_world) = Ok m1 /\
             game_tick 5 rng_low m1 = Ok m1.
Proof.
  apply (dead_tick_is_stable 0 5 rng_low (at_wall fresh_world) (0, 10)); reflexivity.
Defined.

(** X8.  A plain move (no collision, no food) changes the snake and
    nothing else: the new snake is the new head followed by the old snake
    without its last cell; score, food, level, high score, files and the
    generator are untouched. *)
Theorem plain_move (fuel : nat) (rng : Rng) (m : Machine) (head : Pos) :
  hd_error (snake (self m)) = Some head ->
  collides (new_head_of head (direction (self m))) (snake (self m)) = false ->
  new_head_of head (direction (self m)) <> food (self m) ->
  game_tick fuel rng m
  = Ok (with_self
          (set_snake (new_head_of head (direction (self m))
                      :: removelast (snake (self m))) (self m)) m).
Proof.
  intros Hhd Hc Hnf. unfold game_tick.
  destruct (snake (self m)) as [| h t] eqn:Es; [discriminate |].
  simpl in Hhd. injection Hhd as ->. rewrite Hc.
  apply pos_eqb_neq in Hnf. cbn [food set_snake]. rewrite Hnf.
  destruct m as [s w d]. destruct s. reflexivity.
Qed.

Lemma plain_move_witness :
  game_tick 0 rng_low two_cells
  = Ok (with_self (set_snake [(16, 10); (15, 10)] (self two_cells)) two_cells).
Proof.
  apply (plain_move 0 rng_low two_cells (15, 10)); try reflexivity.
  simpl. discriminate.
Defined.

(** X9.  What eating does: when the new head is the food cell and does not
    collide, every returned state has the old snake behind the new head,
    ten more points, a food cell that is on no cell of the new snake (so
    not where it was), and direction, high score, flags and files as
    before. *)
Theorem eating_tick (fuel : nat) (rng : Rng) (m m' : Machine) (head : Pos) :
  hd_error (snake (self m)) = Some head ->
  collides (new_head_of head (direction (self m))) (snake (self m)) = false ->
  new_head_of head (direction (self m)) = food (self m) ->
  game_tick fuel rng m = Ok m' ->
  snake (self m') = food (self m) :: snake (self m) /\
  score (self m') = score (self m) + 10 /\
  ~ In (food (self m')) (snake (self m')) /\
  food (self m') <> food (self m) /\
  direction (self m') = direction (self m) /\
  highscore (self m') = highscore (self m) /\
  game_over (self m') = game_over (self m) /\
  paused (self m') = paused (self m) /\
  world m' = world m.
Proof.
  intros Hhd Hc Hf. unfold game_tick.
  destruct (snake (self m)) as [| h t] eqn:Es; [discriminate |].
  simpl in Hhd. injection Hhd as ->. rewrite Hc.
  cbn [food set_snake]. rewrite Hf.
  assert (Eb : pos_eqb (food (self m)) (food (self m)) = true)
    by (apply pos_eqb_eq; reflexivity).
  rewrite Eb. set (m1 := with_self _ m).
  destruct (spawn_food_cases fuel rng m1) as [(n & _ & Hfree & Hr) | Htm];
    [rewrite Hr | rewrite Htm; discriminate].
  cbn [bind]. intros H. injection H as <-. cbn [self with_self world].
  match goal with
  | |- context [check_level_up ?x] =>
      pose proof (check_level_up_from_frame (rev (seq 0 (List.length LEVELS))) x) as F
  end.
  cbv zeta in F. fold (check_level_up) in F.
  destruct F as (Fs & Fd & Ff & Fc & _ & Fg & Fp & Fh).
  unfold check_level_up. rewrite Fs, Fd, Ff, Fc, Fg, Fp, Fh.
  cbn [m1 self with_self world snake direction food score highscore game_over paused
       set_food set_score set_snake].
  unfold free_draw in Hfree. apply pos_in_not_In in Hfree.
  cbn [m1 self with_self snake set_score set_snake] in Hfree.
  repeat split; try reflexivity; try exact Hfree.
  intros E. apply Hfree. left. symmetry. exact E.
Qed.

Lemma eating_tick_witness :
  snake (self fed) = food (self (centred (16, 10))) :: snake (self (centred (16, 10))) /\
  score (self fed) = score (self (centred (16, 10))) + 10 /\
  ~ In (food (self fed)) (snake (self fed)) /\
  food (self fed) <> food (self (centred (16, 10))) /\
  direction (self fed) = direction (self (centred (16, 10))) /\
  highscore (self fed) = highscore (self (centred (16, 10))) /\
  game_over (self fed) = game_over (self (centred (16, 10))) /\
  paused (self fed) = paused (self (centred (16, 10))) /\
  world fed = world (centred (16, 10)).
Proof.
  apply (eating_tick 1 rng_low (centred (16, 10)) fed (15, 10)); reflexivity.
Defined.

(** X10.  A tick never takes anything back: whenever it returns, the
    score and the high score are at least what they were and the snake is
    at least as long. *)
Theorem tick_never_takes_back (fuel : nat) (rng : Rng) (m m' : Machine) :
  game_tick fuel rng m = Ok m' ->
  score (self m) <= score (self m') /\
  highscore (self m) <= highscore (self m') /\
  (List.length (snake (self m)) <= List.length (snake (self m')))%nat.
Proof.
  unfold game_tick.
  destruct (snake (self m)) as [| head t] eqn:Es; [discriminate |].
  set (new_head := new_head_of head (direction (self m))).
  destruct (collides new_head (head :: t)) eqn:Ec.
  - intros H. injection H as <-. unfold save_highscore.
    cbn [self with_self world score highscore set_game_over].
    destruct (writable (highscore_file (world m)));
      cbn [self with_self snake score highscore set_highscore set_game_over];
      rewrite ?Es; repeat split; lia.
  - cbn [food set_snake].
    destruct (pos_eqb new_head (food (self m))).
    + set (m1 := with_self _ m).
      destruct (spawn_food_cases fuel rng m1) as [(n & _ & _ & Hr) | Htm];
        [rewrite Hr | rewrite Htm; discriminate].
      cbn [bind]. intros H. injection H as <-. cbn [self with_self].
      match goal with
      | |- context [check_level_up ?x] =>
          pose proof (check_level_up_from_frame (rev (seq 0 (List.length LEVELS))) x) as F
      end.
      cbv zeta in F. fold (check_level_up) in F.
      destruct F as (Fs & _ & _ & Fc & _ & _ & _ & Fh).
      unfold check_level_up. rewrite Fs, Fc, Fh.
      cbn [m1 self with_self snake score highscore set_food set_score set_snake].
      rewrite ?Es. simpl List.length. repeat split; lia.
    + intros H. injection H as <-.
      cbn [self with_self snake score highscore set_snake].
      destruct (removelast_cons_length new_head (head :: t)) as [El _];
        [discriminate |].
      repeat split; try lia.
      exact (eq_ind _ (fun k => (List.length (head :: t) <= k)%nat)
                    (le_n _) _ (eq_sym El)).
Qed.

Lemma tick_never_takes_back_witness :
  score (self two_cells) <= 10 /\
  highscore (self two_cells) <= 0 /\
  (List.length (snake (self two_cells)) <= 2)%nat.
Proof.
  apply (tick_never_takes_back 0 rng_low two_cells
           (with_self (set_snake [(16, 10); (15, 10)] (self two_cells)) two_cells)).
  reflexivity.
Defined.

(** ** The high score file *)



(** What [load_highscore] does to a machine. *)
Lemma load_highscore_cases (m m' : Machine) :
  load_highscore m = Ok m' ->
  exists hs, m' = with_self (set_highscore hs (self m)) m /\
    (content (highscore_file (world m)) = None -> hs = 0) /\
    (forall v, content (highscore_file (world m))
               = Some (JObj [("highscore"%string, JInt v)]) -> hs = v).
Proof.
  unfold load_highscore.
  destruct (content (highscore_file (world m))) as [[| | | | | | fields] |] eqn:Ec;
    try (intros H; injection H as <-; exists 0;
         split; [reflexivity | split; [reflexivity | discriminate]]).
  destruct (dict_get "highscore" fields) as [[| | z | | | |] |] eqn:Eg;
    try discriminate; intros H; injection H as <-.
  - exists z. split; [reflexivity |]. split; [discriminate |].
    intros v Hv. injection Hv as ->. cbn in Eg. congruence.
  - exists 0. split; [reflexivity |]. split; [discriminate |].
    intros v Hv. injection Hv as ->. cbn in Eg. discriminate.
Qed.

(** ** Restart *)

Lemma reset_game_cases (fuel : nat) (rng : Rng) (m m' : Machine) :
  reset_game fuel rng m = Ok m' ->
  exists n hs,
    (n < fuel)%nat /\
    free_draw rng (draws m) [(15, 10)] n /\
    m' = mkMachine
           (mkSession [(15, 10)] (1, 0) (draw_cell rng (draws m + 2 * n)) 0 0 5 0%Q
                      false false hs)
           (world m) (S (S (draws m + 2 * n))) /\
    (content (highscore_file (world m)) = None -> hs = 0) /\
    (forall v, content (highscore_file (world m))
               = Some (JObj [("highscore"%string, JInt v)]) -> hs = v).
Proof.
  unfold reset_game.
  set (m1 := with_self _ m).
  destruct (spawn_food_cases fuel rng m1) as [(n & Hn & Hfree & Hr) | Htm];
    [rewrite Hr | rewrite Htm; discriminate].
  cbn [bind self set_level_index set_score level_index].
  change (py_index LEVELS 0) with (Ok (mkLevel 0 5)). cbn [bind lv_speed].
  intros H. apply load_highscore_cases in H.
  destruct H as (hs & -> & Hnone & Hsome).
  exists n, hs. split; [exact Hn |]. split; [exact Hfree |].
  split; [reflexivity |]. split; [exact Hnone | exact Hsome].
Qed.

(** X12.  A reset forgets the session and keeps the world: whatever the
    session was, every state [reset_game] returns has the one-cell snake
    at the centre heading right, score 0, level 0 at speed 5, an empty
    accumulator, both flags cleared and a food cell off the centre; files
    and console are untouched, and the high score is 0 when highscore.json
    cannot be read. *)
Theorem reset_game_fresh (fuel : nat) (rng : Rng) (m m' : Machine) :
  reset_game fuel rng m = Ok m' ->
  snake (self m') = [(GRID_WIDTH / 2, GRID_HEIGHT / 2)] /\
  direction (self m') = (1, 0) /\
  score (self m') = 0 /\
  level_index (self m') = 0 /\
  moves_per_second (self m') = 5 /\
  tick_accumulator (self m') = 0%Q /\
  game_over (self m') = false /\
  paused (self m') = false /\
  food (self m') <> (GRID_WIDTH / 2, GRID_HEIGHT / 2) /\
  world m' = world m /\
  (content (highscore_file (world m)) = None -> highscore (self m') = 0).
Proof.
  intros H. apply reset_game_cases in H.
  destruct H as (n & hs & _ & Hfree & -> & Hnone & _).
  cbn [self world snake direction food score level_index moves_per_second
       tick_accumulator game_over paused highscore].
  repeat split; try reflexivity; try exact Hnone.
  unfold free_draw in Hfree. apply pos_in_not_In in Hfree.
  intros E. apply Hfree. left. symmetry. exact E.
Qed.

Lemma reset_game_fresh_witness :
  snake (self started) = [(GRID_WIDTH / 2, GRID_HEIGHT / 2)] /\
  direction (self started) = (1, 0) /\
  score (self started) = 0 /\
  level_index (self started) = 0 /\
  moves_per_second (self started) = 5 /\
  tick_accumulator (self started) = 0%Q /\
  game_over (self started) = false /\
  paused (self started) = false /\
  food (self started) <> (GRID_WIDTH / 2, GRID_HEIGHT / 2) /\
  world started = world cornered /\
  (content (highscore_file (world cornered)) = None -> highscore (self started) = 0).
Proof.
  apply (reset_game_fresh 1 rng_low cornered started). reflexivity.
Defined.



(** ** Loading *)

Ltac split_assign :=
  repeat match goal with
         | |- context [assign ?e _ _ _] =>
             let r := fresh "r" in
             destruct e as [r | ? | |] eqn:?; cbn [assign]
         end.

(** Whatever [load_body] assigns, it is not the high score nor the
    accumulator. *)
Lemma load_body_frame (data : json) (s : Session) :
  match load_body data s with
  | Completed s' | Caught _ s' =>
      highscore s' = highscore s /\ tick_accumulator s' = tick_accumulator s
  | Unmodelled => True
  end.
Proof.
  unfold load_body. split_assign; try exact I; split; reflexivity.
Qed.

(** A body that runs to its end has cleared both flags and taken the rate
    from the table. *)
Lemma load_body_completed (data : json) (s s' : Session) :
  load_body data s = Completed s' ->
  game_over s' = false /\ paused s' = false /\
  exists lv, py_index LEVELS (level_index s') = Ok lv /\
             moves_per_second s' = lv_speed lv.
Proof.
  unfold load_body. split_assign; try discriminate.
  intros H. injection H as <-.
  split; [reflexivity |]. split; [reflexivity |].
  cbn [level_index moves_per_second set_paused set_game_over set_moves_per_second].
  match goal with
  | E : bind (py_index LEVELS ?i) _ = Ok _ |- _ =>
      destruct (py_index LEVELS i) as [lv | | |] eqn:El; try discriminate;
      cbn [bind] in E; injection E as <-
  end.
  exists lv. split; reflexivity.
Qed.

(** X14.  [load_game] lets no exception escape, and whether it succeeds or
    fails it leaves the high score, the accumulator, the generator, both
    files and the window as they were. *)
Theorem load_game_contains_errors (m : Machine) :
  load_game m = Untyped \/
  exists m', load_game m = Ok m' /\
    highscore (self m') = highscore (self m) /\
    tick_accumulator (self m') = tick_accumulator (self m) /\
    draws m' = draws m /\
    save_file (world m') = save_file (world m) /\
    highscore_file (world m') = highscore_file (world m) /\
    window_open (world m') = window_open (world m).
Proof.
  unfold load_game.
  destruct (content (save_file (world m))) as [data |].
  - pose proof (load_body_frame data (self m)) as F.
    destruct (load_body data (self m)) as [s' | e s' |].
    + right. eexists. split; [reflexivity |]. cbn. tauto.
    + right. eexists. split; [reflexivity |]. cbn. tauto.
    + left. reflexivity.
  - right. eexists. split; [reflexivity |]. cbn. tauto.
Qed.

(** X15.  A load that fails before its first assignment changes nothing:
    when the slot cannot be read, or the stored value has no usable snake
    field (not an object, key missing, value or an element not iterable),
    [load_game] reports the failure and the session is exactly as before. *)
Theorem load_game_early_failure (m : Machine) :
  content (save_file (world m)) = None \/
  (exists data e, content (save_file (world m)) = Some data /\
                  (v <- py_getitem data "snake" ;; py_snake v) = Raise e) ->
  exists m' e, load_game m = Ok m' /\
    self m' = self m /\
    stdout (world m') = stdout (world m) ++ [FailedToLoad e].
Proof.
  intros [Hn | (data & e & Hd & Hr)]; unfold load_game.
  - rewrite Hn. eexists. exists OSError. repeat split; reflexivity.
  - rewrite Hd. unfold load_body. rewrite Hr. cbn [assign].
    eexists. exists e. repeat split; reflexivity.
Qed.

Lemma load_game_early_failure_witness :
  exists m' e, load_game (started_with_slot (JObj [])) = Ok m' /\
    self m' = self (started_with_slot (JObj [])) /\
    stdout (world m') = stdout (world (started_with_slot (JObj []))) ++ [FailedToLoad e].
Proof.
  apply (load_game_early_failure (started_with_slot (JObj []))).
  right. exists (JObj []), KeyError. split; reflexivity.
Defined.

(** X16.  When [load_game] reports success, the game is neither over nor
    paused, and the tick rate is the speed LEVELS gives for the loaded
    level index. *)
Theorem load_game_success (m m' : Machine) :
  load_game m = Ok m' ->
  stdout (world m') = stdout (world m) ++ [GameLoaded] ->
  game_over (self m') = false /\ paused (self m') = false /\
  exists lv, py_index LEVELS (level_index (self m')) = Ok lv /\
             moves_per_second (self m') = lv_speed lv.
Proof.
  unfold load_game.
  destruct (content (save_file (world m))) as [data |].
  - destruct (load_body data (self m)) as [s' | e s' |] eqn:Eb.
    + intros H _. injection H as <-. cbn [self].
      exact (load_body_completed data (self m) s' Eb).
    + intros H Hout. injection H as <-. cbn in Hout.
      apply app_inj_tail in Hout. destruct Hout as [_ Hout]. discriminate.
    + discriminate.
  - intros H Hout. injection H as <-. cbn in Hout.
    apply app_inj_tail in Hout. destruct Hout as [_ Hout]. discriminate.
Qed.

Lemma load_game_success_witness :
  exists m', load_game (save_game curled) = Ok m' /\
    game_over (self m') = false /\ paused (self m') = false /\
    exists lv, py_index LEVELS (level_index (self m')) = Ok lv /\
               moves_per_second (self m') = lv_speed lv.
Proof.
  eexists. split; [reflexivity |].
  eapply (load_game_success (save_game curled)); reflexivity.
Defined.

(** X17.  Nothing checks the loaded snake: a stored record with an empty
    snake list (and an otherwise valid shape) loads with success, and from
    then on every tick raises IndexError. *)
Theorem load_empty_snake_then_tick (s : Session) (live : Machine) :
  snake s = [] ->
  -4 <= level_index s < 4 ->
  content (save_file (world live)) = Some (save_record s) ->
  exists m', load_game live = Ok m' /\
    stdout (world m') = stdout (world live) ++ [GameLoaded] /\
    forall fuel rng, game_tick fuel rng m' = Raise IndexError.
Proof.
  intros Hs Hli Hc.
  destruct (py_index_levels _ Hli) as [lv Hlv].
  unfold load_game. rewrite Hc.
  rewrite (load_body_save_record s (self live) lv Hlv).
  eexists. split; [reflexivity |]. split; [reflexivity |].
  intros fuel rng. unfold game_tick. cbn [self snake]. rewrite Hs. reflexivity.
Qed.

Lemma load_empty_snake_then_tick_witness :
  exists m', load_game (started_with_slot (save_record headless)) = Ok m' /\
    stdout (world m')
    = stdout (world (started_with_slot (save_record headless))) ++ [GameLoaded] /\
    forall fuel rng, game_tick fuel rng m' = Raise IndexError.
Proof.
  apply (load_empty_snake_then_tick headless
           (started_with_slot (save_record headless))).
  - reflexivity.
  - simpl. lia.
  - reflexivity.
Defined.

(** ** Sampling *)

Lemma spawn_food_loop_first (rng : Rng) (cells : list Pos) (fuel d : nat)
  (p : Pos) (d' : nat) :
  spawn_food_loop fuel rng d cells = Ok (p, d') ->
  exists n, (n < fuel)%nat /\
    p = draw_cell rng (d + 2 * n) /\
    d' = (d + 2 * n + 2)%nat /\
    pos_in p cells = false /\
    forall k, (k < n)%nat -> pos_in (draw_cell rng (d + 2 * k)) cells = true.
Proof.
  revert d. induction fuel as [| fuel IH]; intros d; [discriminate |].
  rewrite spawn_food_loop_step.
  destruct (pos_in (draw_cell rng d) cells) eqn:E; cbn [negb].
  - intros H. destruct (IH _ H) as (n & Hn & Hp & Hd & Hfree & Hbusy).
    exists (S n). rewrite draw_index_next.
    repeat split; try assumption; try lia.
    intros k Hk. destruct k as [| k].
    + rewrite draw_index_first. exact E.
    + rewrite draw_index_next. apply Hbusy. lia.
  - intros H. injection H as <- <-. exists 0%nat. rewrite draw_index_first.
    repeat split; try assumption; lia.
Qed.

(** X18.  [spawn_food] takes the first drawn cell that is off the snake:
    the food it sets was drawn at some iteration [n], every earlier
    iteration drew a snake cell, the generator advanced by exactly
    2 (n + 1) draws, and nothing but food and generator changed. *)
Theorem spawn_food_first_free (fuel : nat) (rng : Rng) (m m' : Machine) :
  spawn_food fuel rng m = Ok m' ->
  exists n, (n < fuel)%nat /\
    food (self m') = draw_cell rng (draws m + 2 * n) /\
    pos_in (food (self m')) (snake (self m)) = false /\
    (forall k, (k < n)%nat ->
               pos_in (draw_cell rng (draws m + 2 * k)) (snake (self m)) = true) /\
    draws m' = (draws m + 2 * n + 2)%nat /\
    m' = with_draws (draws m') (with_self (set_food (food (self m')) (self m)) m).
Proof.
  unfold spawn_food.
  destruct (spawn_food_loop fuel rng (draws m) (snake (self m)))
    as [[p d'] | | |] eqn:El; try discriminate.
  cbn [bind fst snd]. intros H. injection H as <-.
  destruct (spawn_food_loop_first rng _ fuel _ p d' El)
    as (n & Hn & Hp & Hd & Hfree & Hbusy).
  exists n. cbn [self draws with_self with_draws food set_food].
  repeat split; assumption.
Qed.

Lemma spawn_food_first_free_witness :
  exists n, (n < 1)%nat /\
    food (self started) = draw_cell rng_low (draws cornered + 2 * n) /\
    pos_in (food (self started)) [(15, 10)] = false /\
    (forall k, (k < n)%nat ->
               pos_in (draw_cell rng_low (draws cornered + 2 * k)) [(15, 10)] = true) /\
    draws started = (draws cornered + 2 * n + 2)%nat /\
    started = with_draws (draws started)
                (with_self (set_food (food (self started))
                   (set_direction (1, 0) (set_snake [(15, 10)] (self cornered))))
                   cornered).
Proof.
  apply (spawn_food_first_free 1 rng_low
           (with_self (set_direction (1, 0) (set_snake [(15, 10)] (self cornered)))
              cornered)
           (mkMachine (set_food (0, 0)
                         (set_direction (1, 0) (set_snake [(15, 10)] (self cornered))))
                      fresh_world 2)).
  reflexivity.
Defined.

(** ** Levels *)

(** Where the scan of [check_level_up] finds the index the session already
    has, or finds no index at all, the session is returned as it is. *)
Lemma check_level_up_stable (s : Session) :
  (150 <= score s /\ level_index s = 3) \/
  (100 <= score s < 150 /\ level_index s = 2) \/
  (50 <= score s < 100 /\ level_index s = 1) \/
  (0 <= score s < 50 /\ level_index s = 0) \/
  score s < 0 ->
  check_level_up s = s.
Proof.
  intros H. unfold check_level_up. cbn [LEVELS List.length seq rev app].
  cbn [check_level_up_from]. unfold LEVELS at 1 2 3 4.
  cbn [nth_error lv_score lv_speed].
  rewrite !Z.geb_leb.
  destruct (Z.leb_spec 150 (score s));
    [destruct (Z.eqb_spec (Z.of_nat 3) (level_index s)); cbn [negb];
     [reflexivity | simpl in *; lia] |].
  destruct (Z.leb_spec 100 (score s));
    [destruct (Z.eqb_spec (Z.of_nat 2) (level_index s)); cbn [negb];
     [reflexivity | simpl in *; lia] |].
  destruct (Z.leb_spec 50 (score s));
    [destruct (Z.eqb_spec (Z.of_nat 1) (level_index s)); cbn [negb];
     [reflexivity | simpl in *; lia] |].
  destruct (Z.leb_spec 0 (score s));
    [destruct (Z.eqb_spec (Z.of_nat 0) (level_index s)); cbn [negb];
     [reflexivity | simpl in *; lia] |].
  reflexivity.
Qed.

(** X19.  [check_level_up] settles in one call: calling it again changes
    nothing; and for a negative score, which reaches no threshold, the
    first call already changes nothing. *)
Theorem check_level_up_idempotent (s : Session) :
  check_level_up (check_level_up s) = check_level_up s /\
  (score s < 0 -> check_level_up s = s).
Proof.
  assert (Hneg : score s < 0 -> check_level_up s = s).
  { intros H. apply check_level_up_stable. tauto. }
  split; [| exact Hneg].
  destruct (Z.lt_ge_cases (score s) 0) as [Hlt | Hge].
  - rewrite (Hneg Hlt). exact (Hneg Hlt).
  - pose proof (check_level_up_index s Hge) as Hi. cbv zeta in Hi.
    pose proof (check_level_up_from_frame (rev (seq 0 (List.length LEVELS))) s) as F.
    cbv zeta in F. destruct F as (_ & _ & _ & Fc & _).
    fold (check_level_up s) in Fc.
    apply check_level_up_stable. rewrite Fc. tauto.
Qed.

Lemma check_level_up_idempotent_witness :
  check_level_up (session_of [(3, 3)] (1, 0) (9, 9) (-10) 0)
  = session_of [(3, 3)] (1, 0) (9, 9) (-10) 0.
Proof.
  apply (proj2 (check_level_up_idempotent (session_of [(3, 3)] (1, 0) (9, 9) (-10) 0))).
  simpl. lia.
Defined.

Lemma game_tick_grows (fuel : nat) (rng : Rng) (m m' : Machine) :
  game_tick fuel rng m = Ok m' -> score (self m) <= score (self m').
Proof.
  unfold game_tick.
  destruct (snake (self m)) as [| head t] eqn:Es; [discriminate |].
  destruct (collides _ _).
  - intros H. injection H as <-.
    pose proof (save_highscore_frame (with_self (set_game_over true (self m)) m)) as F.
    cbv zeta in F. destruct F as (_ & _ & _ & Fc & _). rewrite Fc. cbn. lia.
  - cbn [food set_snake].
    destruct (pos_eqb _ _).
    + set (m1 := with_self _ m).
      destruct (spawn_food_cases fuel rng m1) as [(n & _ & _ & Hr) | Htm];
        [rewrite Hr | rewrite Htm; discriminate].
      cbn [bind]. intros H. injection H as <-. cbn [self with_self].
      match goal with
      | |- context [check_level_up ?x] =>
          pose proof (check_level_up_from_frame (rev (seq 0 (List.length LEVELS))) x) as F
      end.
      cbv zeta in F. destruct F as (_ & _ & _ & Fc & _).
      unfold check_level_up. rewrite Fc. cbn. lia.
    + intros H. injection H as <-. cbn. lia.
Qed.

(** X20.  Play only gets faster: a tick from a reachable state never
    lowers the level index nor the tick rate. *)
Theorem tick_never_slows (fuel : nat) (rng : Rng) (m m' : Machine) :
  reachable rng m ->
  game_tick fuel rng m = Ok m' ->
  level_index (self m) <= level_index (self m') /\
  moves_per_second (self m) <= moves_per_second (self m').
Proof.
  intros Hm Ht.
  pose proof (reachable_play_state rng m Hm) as Hp.
  pose proof (game_tick_play_state fuel rng m m' Hp Ht) as Hp'.
  pose proof (game_tick_grows fuel rng m m' Ht) as Hsc.
  destruct Hp as (_ & _ & _ & T), Hp' as (_ & _ & _ & T').
  assert (Hli : level_index (self m) <= level_index (self m')).
  { destruct T as (lv & H0 & Hn & _ & Hle & _).
    destruct T' as (lv' & _ & _ & _ & _ & Hmax).
    specialize (Hmax _ lv Hn). rewrite Z2Nat.id in Hmax by exact H0.
    apply Hmax. lia. }
  split; [exact Hli |].
  apply level_tuned_row in T. apply level_row_cases in T.
  apply level_tuned_row in T'. apply level_row_cases in T'. lia.
Qed.

Lemma tick_never_slows_witness :
  level_index (self started) <= level_index (self started) /\
  moves_per_second (self started)
  <= moves_per_second
       (self (with_self (set_snake [(16, 10)] (self started)) started)).
Proof.
  apply (tick_never_slows 1 rng_low started
           (with_self (set_snake [(16, 10)] (self started)) started)).
  - exact started_reachable.
  - reflexivity.
Defined.

(** ** Drawing *)








Lemma draw_segments_body (i : nat) (cells : list Pos) :
  filter is_head_rect (draw_segments (S i) cells) = [] /\
  List.length (filter is_body_rect (draw_segments (S i) cells)) = List.length cells.
Proof.
  revert i. induction cells as [| [sx sy] rest IH]; intros i; [split; reflexivity |].
  cbn [draw_segments Nat.eqb filter is_head_rect is_body_rect List.length].
  destruct (IH (S i)) as [Hh Hb]. split; [exact Hh | f_equal; exact Hb].
Qed.

Lemma draw_grid_no_snake_colour :
  filter is_head_rect draw_grid = [] /\ filter is_body_rect draw_grid = [].
Proof.
  assert (H : forall f, (forall l r b t, f (FilledRect l r b t DARK_SLATE_GRAY) = false) ->
                        (forall l r b t, f (FilledRect l r b t DIM_GRAY) = false) ->
                        filter f draw_grid = []).
  { intros f H1 H2.
    assert (Hall : forall d, In d draw_grid -> f d = false).
    { intros d Hd. unfold draw_grid in Hd.
      apply in_flat_map in Hd. destruct Hd as (x & _ & Hd).
      apply in_map_iff in Hd. destruct Hd as (y & <- & _).
      destruct ((x + y) mod 2 =? 0); [apply H1 | apply H2]. }
    induction draw_grid as [| d ds IH]; [reflexivity |].
    cbn [filter]. rewrite (Hall d (or_introl eq_refl)).
    apply IH. intros d' Hd'. apply Hall. right. exact Hd'. }
  split; apply H; reflexivity.
Qed.

(** X22.  The head can be told from the body: among everything [on_draw]
    paints, exactly one rectangle is GREEN when the snake has a cell (none
    when it has none), and the DARK_GREEN rectangles are as many as the
    remaining cells. *)
Theorem on_draw_head_and_body (s : Session) :
  List.length (filter is_head_rect (on_draw s))
  = Nat.min 1 (List.length (snake s)) /\
  List.length (filter is_body_rect (on_draw s))
  = Nat.pred (List.length (snake s)).
Proof.
  destruct draw_grid_no_snake_colour as [Gh Gb].
  unfold on_draw. rewrite !filter_app, Gh, Gb.
  assert (Hfood : is_head_rect (draw_food s) = false /\ is_body_rect (draw_food s) = false).
  { unfold draw_food. destruct (food s). split; reflexivity. }
  destruct Hfood as [Fh Fb].
  cbn [filter is_head_rect is_body_rect app draw_hud].
  rewrite Fh, Fb. cbn [app].
  rewrite !length_app.
  assert (Hp : forall f, (forall t x y c z, f (DrawText t x y c z) = false) ->
    List.length (filter f (if paused s
       then [DrawText "Paused" (inject_Z SCREEN_WIDTH / 2 - inject_Z 40)
                      (inject_Z SCREEN_HEIGHT / 2) YELLOW 24] else [])) = 0%nat /\
    List.length (filter f (if game_over s
       then [DrawText "GAME OVER - Press ENTER to restart"
                      (inject_Z SCREEN_WIDTH / 2 - inject_Z 180)
                      (inject_Z SCREEN_HEIGHT / 2) RED 18] else [])) = 0%nat).
  { intros f Hf. destruct (paused s), (game_over s); cbn [filter];
      rewrite ?Hf; split; reflexivity. }
  destruct (Hp is_head_rect (fun _ _ _ _ _ => eq_refl)) as [Ph Oh].
  destruct (Hp is_body_rect (fun _ _ _ _ _ => eq_refl)) as [Pb Ob].
  rewrite Ph, Oh, Pb, Ob.
  destruct (snake s) as [| [sx sy] rest]; [split; reflexivity |].
  cbn [draw_segments Nat.eqb filter is_head_rect is_body_rect].
  destruct (draw_segments_body 0 rest) as [Hh Hb].
  rewrite Hh, Hb. cbn [List.length Nat.min Nat.pred]. split; lia.
Qed.
